(** * rag_chatbot: document ingestion and chat front end

    A shallow embedding of [ingest_pdf.py] and [app.py].

    - Python [str] values are sequences of Unicode code points: a character
      is its code point (an [N]), a string a list of characters.
    - Python [int] values are [Z].
    - Calls into the cloud SDKs, PyMuPDF, PIL and the file system are
      operations of a [Services] interface over an abstract world; every
      such call either returns a value or raises.
    - Functions with effects live in a state-and-exception monad [M]: a
      raise keeps every mutation made before it, as in Python. *)

From Stdlib Require Import List ZArith NArith Bool Lia.
From Stdlib Require Import Strings.String Strings.Ascii.
From Stdlib Require Import Numbers.DecimalString Numbers.DecimalZ Numbers.DecimalPos.
Import ListNotations.

Set Implicit Arguments.

(* ------------------------------------------------------------------ *)
(** * Python strings *)
(* ------------------------------------------------------------------ *)

Module PyStr.

Definition char := N.
Definition str := list char.

(** The code point of an ASCII character. *)
Definition chr (a : ascii) : char := N_of_ascii a.

(** A string literal of the source (ASCII only). *)
Definition lit (s : string) : str := map chr (list_ascii_of_string s).

(** [str(n)] for a Python int: optional minus sign, decimal digits, no
    leading zero, ["0"] for zero. *)
Definition str_of_int (n : Z) : str := lit (NilZero.string_of_int (Z.to_int n)).

(** Truthiness of a string: [if s:] holds for the non-empty ones. *)
Definition truthy (s : str) : bool :=
  match s with [] => false | _ :: _ => true end.

(** [a == b] on strings. *)
Definition str_eqb (a b : str) : bool :=
  if list_eq_dec N.eq_dec a b then true else false.

End PyStr.
Import PyStr.

(* ------------------------------------------------------------------ *)
(** * The fragment of [re] used by [safe_id] *)
(* ------------------------------------------------------------------ *)

Module Re.

(** An item of a bracketed set: a range [lo-hi] or one character. *)
Inductive set_item :=
| Range (lo hi : char)
| Single (c : char).

Definition item_matches (c : char) (it : set_item) : bool :=
  match it with
  | Range lo hi => (lo <=? c)%N && (c <=? hi)%N
  | Single x => (c =? x)%N
  end.

(** [[...]]: some item matches. *)
Definition in_set (items : list set_item) (c : char) : bool :=
  existsb (item_matches c) items.

(** [[^...]]: no item matches (newline included, whatever the flags). *)
Definition complement_set (items : list set_item) (c : char) : bool :=
  negb (in_set items c).

(** [re.sub(pattern, repl, text)] for a pattern that is one set: the
    matches are the single characters of [text] in the set, scanned left
    to right; each is replaced by [repl], the others are copied. *)
Fixpoint sub (matches : char -> bool) (repl text : str) : str :=
  match text with
  | [] => []
  | c :: rest => (if matches c then repl else [c]) ++ sub matches repl rest
  end.

End Re.

(* ------------------------------------------------------------------ *)
(** * Exceptions and effects *)
(* ------------------------------------------------------------------ *)

Module Py.

(** What a [raise] carries, by the class that decides which handler
    takes it. [msg] is what [str(e)] prints. *)
Inductive exn :=
| Exception (msg : str)       (* an instance of class [Exception] *)
| BaseException (msg : str)   (* [KeyboardInterrupt], [SystemExit], ... *)
| RerunException.             (* raised by [st.rerun()]; not an [Exception] *)

Inductive result (A : Type) :=
| Ok (a : A)
| Raise (e : exn).
Arguments Ok {A} a.
Arguments Raise {A} e.

(** A computation over a state [S]: it returns or raises, and in both
    cases leaves a state behind. *)
Definition M (S A : Type) : Type := S -> result A * S.

Definition ret {S A} (a : A) : M S A := fun s => (Ok a, s).

Definition raise {S A} (e : exn) : M S A := fun s => (Raise e, s).

Definition bind {S A B} (c : M S A) (k : A -> M S B) : M S B :=
  fun s =>
    match c s with
    | (Ok a, s') => k a s'
    | (Raise e, s') => (Raise e, s')
    end.

(** [try: body / except Exception as e: handler(str(e))]. Anything that
    is not an [Exception] passes through. *)
Definition try_except_Exception {S A}
    (body : M S A) (handler : str -> M S A) : M S A :=
  fun s =>
    match body s with
    | (Raise (Exception msg), s') => handler msg s'
    | other => other
    end.

(** [when b c]: an [if b:] without [else]. *)
Definition when {S} (b : bool) (c : M S unit) : M S unit :=
  if b then c else ret tt.

End Py.
Import Py.

Declare Scope py_scope.
Delimit Scope py_scope with py.
Notation "x <- c ;; k" := (bind c (fun x => k))
  (at level 61, c at next level, right associativity) : py_scope.
Notation "c ;;; k" := (bind c (fun _ => k))
  (at level 61, right associativity) : py_scope.
Open Scope py_scope.

(* ------------------------------------------------------------------ *)
(** * [ingest_pdf.py]: document keys *)
(* ------------------------------------------------------------------ *)

(** The set [a-zA-Z0-9_\-=] of the pattern in [safe_id]. *)
Definition key_set : list Re.set_item :=
  [ Re.Range (chr "a") (chr "z");
    Re.Range (chr "A") (chr "Z");
    Re.Range (chr "0") (chr "9");
    Re.Single (chr "_");
    Re.Single (chr "-");
    Re.Single (chr "=") ].

(** [safe_id(text)]: [re.sub(r"[^a-zA-Z0-9_\-=]", "_", text)]. *)
Definition safe_id (text : str) : str :=
  Re.sub (Re.complement_set key_set) (lit "_") text.

(** The characters the docstring of [safe_id] allows in a key:
    letters, digits, underscore, hyphen, equals. *)
Definition is_letter (c : char) : bool :=
  ((97 <=? c) && (c <=? 122) || (65 <=? c) && (c <=? 90))%N.

Definition is_digit (c : char) : bool := ((48 <=? c) && (c <=? 57))%N.

Definition allowed_key_char (c : char) : bool :=
  is_letter c || is_digit c || (c =? 95)%N || (c =? 45)%N || (c =? 61)%N.

(** The sanitized form of a name, in the words of the docstring: every
    character that is not allowed becomes an underscore, the allowed ones
    stay where they are. *)
Definition sanitized_form (name : str) : str :=
  map (fun c => if allowed_key_char c then c else 95%N) name.

(** Two names differ only in disallowed characters: what is left of them
    once the disallowed characters are dropped is the same string. (Names
    of one length that differ only at places where both have a disallowed
    character are a special case.) *)
Definition differ_only_in_disallowed (a b : str) : Prop :=
  filter allowed_key_char a = filter allowed_key_char b.

(** The two content types [upload_page] iterates over. *)
Definition page_detail : str := lit "page_detail".
Definition page_summary : str := lit "page_summary".

(** The f-string [f"{safe_doc_name}_page_{page_num}_{content_type}"]. *)
Definition format_id (safe_doc_name : str) (page_num : Z) (content_type : str) : str :=
  safe_doc_name ++ lit "_page_" ++ str_of_int page_num ++ lit "_" ++ content_type.

(** The id [upload_page] gives the record of [doc_name], [page_num] and
    [content_type]. *)
Definition record_id (doc_name : str) (page_num : Z) (content_type : str) : str :=
  format_id (safe_id doc_name) page_num content_type.

(* ------------------------------------------------------------------ *)
(** * [ingest_pdf.py]: the ingestion pipeline *)
(* ------------------------------------------------------------------ *)

Module Ingest.

(** A record of the search index, as the dict built in [upload_page].
    [Vec] is the type of embedding vectors (lists of floats in Python). *)
Record document (Vec : Type) := {
  id : str;
  content : str;
  contentVector : Vec;
  doc : str;
  page : Z;
  section : str;
  year : str;
  content_type : str
}.

(** The lines the pipeline prints. *)
Inductive log_line :=
| LogStarting (pdf_path : str)
| LogProcessing (page_num : Z)
| LogImageSize (size_bytes : N)
| LogStored (page_num : Z) (doc_name : str)
| LogFailed (page_num : Z) (e : str)
| LogCompleted.

(** What the pipeline does to the outside, in order: lines printed and
    batches handed to [search_client.upload_documents]. *)
Inductive event (Vec : Type) :=
| Printed (line : log_line)
| UploadDocuments (documents : list (document Vec)).
Arguments Printed {Vec} line.

(** The calls that leave the program. Each takes the world and returns
    or raises, with the world it leaves. *)
Record Services (World Vec : Type) := {
  (* [tempfile.TemporaryDirectory()]: entering the block, and the
     [cleanup()] of its [__exit__], which raises when the directory cannot
     be removed *)
  mkdtemp : World -> result str * World;
  cleanup : str -> World -> result unit * World;
  (* [fitz.open(pdf_path)] and [len(doc)] *)
  fitz_open : str -> World -> result nat * World;
  (* [doc.load_page(i).get_pixmap(...).save(image_path)] *)
  save_pixmap : str -> nat -> str -> World -> result unit * World;
  (* the body of [convert_to_jpeg] *)
  convert_to_jpeg : str -> World -> result str * World;
  os_path_getsize : str -> World -> result N * World;
  (* the vision call of [extract_page_detail], stripped *)
  extract_page_detail : str -> World -> result str * World;
  (* the chat call of [generate_page_summary], stripped *)
  generate_page_summary : str -> World -> result str * World;
  (* [openai_client.embeddings.create(...).data[0].embedding] *)
  create_embedding : str -> World -> result Vec * World;
  (* what the search service answers to [upload_documents] *)
  upload_documents : list (document Vec) -> World -> result unit * World
}.

Record state (World Vec : Type) := {
  world : World;
  trace : list (event Vec)
}.

(** [os.path.join(a, b)] on POSIX for a relative [b]. *)
Definition os_path_join (a b : str) : str :=
  match rev a with
  | [] => b
  | last :: _ => if (last =? chr "/")%N then a ++ b else a ++ lit "/" ++ b
  end.

Section Pipeline.

Context {World Vec : Type} (svc : Services World Vec).

Local Notation "'St'" := (state World Vec).

(** A call to a service: only the world changes. *)
Definition call {A} (op : World -> result A * World) : M St A :=
  fun s =>
    let (r, w) := op (world s) in
    (r, {| world := w; trace := trace s |}).

Definition emit (e : event Vec) : M St unit :=
  fun s => (Ok tt, {| world := world s; trace := trace s ++ [e] |}).

Definition print (line : log_line) : M St unit := emit (Printed line).

(** Leaving the [with tempfile.TemporaryDirectory()] block, however the
    body ended: [__exit__] removes the directory. When the removal
    raises, its exception is what leaves the block, in place of the
    result or the exception of the body. *)
Definition leave_TemporaryDirectory {A} (tmpdir : str) (out : result A * St)
    : result A * St :=
  let (r, s) := out in
  match cleanup svc tmpdir (world s) with
  | (Ok _, w) => (r, {| world := w; trace := trace s |})
  | (Raise e, w) => (Raise e, {| world := w; trace := trace s |})
  end.

(** [with tempfile.TemporaryDirectory() as tmpdir: body]. *)
Definition with_TemporaryDirectory {A} (body : str -> M St A) : M St A :=
  fun s =>
    match call (mkdtemp svc) s with
    | (Ok tmpdir, s1) => leave_TemporaryDirectory tmpdir (body tmpdir s1)
    | (Raise e, s1) => (Raise e, s1)
    end.

(** The loop of [pdf_to_images] over [range(len(doc))]. *)
Fixpoint pdf_to_images_loop (pdf_path output_dir : str) (indices : list nat)
    (image_paths : list (Z * str)) : M St (list (Z * str)) :=
  match indices with
  | [] => ret image_paths
  | page_index :: rest =>
      let page_num := (Z.of_nat page_index + 1)%Z in
      let image_path :=
        os_path_join output_dir (lit "page_" ++ str_of_int page_num ++ lit ".png") in
      call (save_pixmap svc pdf_path page_index image_path) ;;;
      pdf_to_images_loop pdf_path output_dir rest
        (image_paths ++ [(page_num, image_path)])
  end.

Definition pdf_to_images (pdf_path output_dir : str) : M St (list (Z * str)) :=
  n <- call (fitz_open svc pdf_path) ;;
  pdf_to_images_loop pdf_path output_dir (seq 0 n) [].

(** The loop of [upload_page] over the (content, content type) pairs. *)
Fixpoint upload_page_loop (doc_name : str) (page_num : Z) (year section : str)
    (safe_doc_name : str) (items : list (str * str))
    (documents : list (document Vec)) : M St (list (document Vec)) :=
  match items with
  | [] => ret documents
  | (content, content_type) :: rest =>
      vector <- call (create_embedding svc content) ;;
      upload_page_loop doc_name page_num year section safe_doc_name rest
        (documents ++
         [ {| id := format_id safe_doc_name page_num content_type;
              content := content;
              contentVector := vector;
              doc := doc_name;
              page := page_num;
              section := section;
              year := year;
              content_type := content_type |} ])
  end.

Definition upload_page (doc_name : str) (page_num : Z) (year : str)
    (detail_text summary_text : str) (section : str) : M St unit :=
  let safe_doc_name := safe_id doc_name in
  documents <-
    upload_page_loop doc_name page_num year section safe_doc_name
      [ (detail_text, page_detail); (summary_text, page_summary) ] [] ;;
  emit (UploadDocuments documents) ;;;
  call (upload_documents svc documents) ;;;
  print (LogStored page_num doc_name).

(** The default of the [section] parameter of [upload_page]. *)
Definition default_section : str := lit "Auto-detected".

(** The body of the [try] in [ingest_pdf], for one page. *)
Definition process_page (doc_name year : str) (page_num : Z) (image_path : str)
    : M St unit :=
  image_path <- call (convert_to_jpeg svc image_path) ;;
  size <- call (os_path_getsize svc image_path) ;;
  print (LogImageSize size) ;;;
  detail_text <- call (extract_page_detail svc image_path) ;;
  summary_text <- call (generate_page_summary svc detail_text) ;;
  upload_page doc_name page_num year detail_text summary_text default_section.

(** The [for page_num, image_path in page_images] loop of [ingest_pdf]. *)
Fixpoint ingest_loop (doc_name year : str) (page_images : list (Z * str))
    : M St unit :=
  match page_images with
  | [] => ret tt
  | (page_num, image_path) :: rest =>
      print (LogProcessing page_num) ;;;
      try_except_Exception
        (process_page doc_name year page_num image_path)
        (fun e => print (LogFailed page_num e)) ;;;
      ingest_loop doc_name year rest
  end.

Definition ingest_pdf (pdf_path doc_name year : str) : M St unit :=
  print (LogStarting pdf_path) ;;;
  with_TemporaryDirectory (fun tmpdir =>
    page_images <- pdf_to_images pdf_path tmpdir ;;
    ingest_loop doc_name year page_images) ;;;
  print LogCompleted.

(** The events a run added to the trace it started from. *)
Definition added (s s' : St) (evs : list (event Vec)) : Prop :=
  trace s' = trace s ++ evs.

(** A computation only adds to the trace: what was printed or uploaded
    before it stays. *)
Definition extends_trace {A} (c : M St A) : Prop :=
  forall s, exists evs, trace (snd (c s)) = trace s ++ evs.

(** The state after one more line is printed. *)
Definition logged (line : log_line) (s : St) : St :=
  {| world := world s; trace := trace s ++ [Printed line] |}.

(** What follows an outcome: the rest of the function after a return,
    nothing after a raise. *)
Definition and_then {A B} (out : result A * St) (k : M St B) : result B * St :=
  match out with
  | (Ok _, s) => k s
  | (Raise e, s) => (Raise e, s)
  end.

(** The dict [upload_page] appends for [content] of type [content_type]
    once [vector] is its embedding. *)
Definition page_document (doc_name : str) (page_num : Z) (year section : str)
    (content content_type : str) (vector : Vec) : document Vec :=
  {| id := format_id (safe_id doc_name) page_num content_type;
     content := content;
     contentVector := vector;
     doc := doc_name;
     page := page_num;
     section := section;
     year := year;
     content_type := content_type |}.

End Pipeline.

End Ingest.

(* ------------------------------------------------------------------ *)
(** * [app.py]: retrieval and the chat session *)
(* ------------------------------------------------------------------ *)

Module App.

(** The values found in a search result. *)
Inductive value :=
| VStr (s : str)
| VInt (n : Z)
| VNone.

(** A search result: a mapping from field names to values. *)
Definition hit := list (str * value).

(** [KeyError(key)]: its [str] is the [repr] of the key, which for a
    field name (letters and underscores) is the name between single
    quotes. *)
Definition KeyError (key : str) : exn :=
  Exception (lit "'" ++ key ++ lit "'").

(** [r[key]]: the value of the field, [KeyError] when there is none. *)
Fixpoint getitem (r : hit) (key : str) : result value :=
  match r with
  | [] => Raise (KeyError key)
  | (k, v) :: rest => if str_eqb k key then Ok v else getitem rest key
  end.

(** The dict [retrieve_documents] builds for one result. *)
Record context_doc := {
  content : value;
  doc : value;
  page : value;
  content_type : value
}.

(** A chat message of the session history. *)
Record message := {
  role : str;
  msg_content : str
}.

(** A chunk of the streamed completion: [chunk.choices],
    [choice.delta] and [delta.content], the last two possibly [None]. *)
Record delta := { delta_content : option str }.
Record choice := { choice_delta : option delta }.
Record chunk := { choices : list choice }.

(** [st.session_state]: the two keys the script uses, each present or
    not. *)
Record session_state := {
  messages : option (list message);
  suggested_input : option str
}.

Definition empty_session : session_state :=
  {| messages := None; suggested_input := None |}.

Record Services (World Vec : Type) := {
  (* [init_clients()], cached by [st.cache_resource]: building the two
     clients reads [config] and calls no service, so under one
     configuration it returns at every run ([None]) or raises the same
     error at every run ([Some msg], an [Exception] of message [msg]) *)
  init_clients_error : option str;
  (* [openai_client.embeddings.create(...).data[0].embedding] *)
  embeddings_create : str -> World -> result Vec * World;
  (* [search_client.search(...)] with the vector and [k], iterated *)
  search : Vec -> Z -> World -> result (list hit) * World;
  (* [generate_answer_stream(question, contexts)], iterated: the streamed
     completion for the prompt made of the question and the contexts *)
  generate_answer_stream :
    str -> list context_doc -> World -> result (list chunk) * World
}.

Record state (World : Type) := {
  session : session_state;
  world : World
}.

(** What the user did to trigger a run of the script: at most one widget
    reports an interaction in a run. *)
Inductive interaction :=
| NoInteraction
| ClickSuggested (i : nat)
| ClickClearChat
| SubmitChatInput (text : str).

Definition suggested_questions : list str :=
  [ lit "Provide summary on Swiggy Annual Report 2023-24";
    lit "Compare financial data between 2023-24" ].

(** [cols[i].button(question)] in this run. *)
Definition suggested_button (ev : interaction) (i : nat) : bool :=
  match ev with
  | ClickSuggested j => Nat.eqb i j
  | _ => false
  end.

(** [st.button("Clear Chat")] in this run. *)
Definition clear_button (ev : interaction) : bool :=
  match ev with
  | ClickClearChat => true
  | _ => false
  end.

(** [st.chat_input(...)] in this run. *)
Definition chat_input (ev : interaction) : option str :=
  match ev with
  | SubmitChatInput text => Some text
  | _ => None
  end.

(** [if user_input:] for a value that is [None] or a string. *)
Definition input_truthy (user_input : option str) : option str :=
  match user_input with
  | Some text => if truthy text then Some text else None
  | None => None
  end.

(** The token of one chunk, as the streaming loop reads it: nothing when
    there is no choice, no delta or no content. *)
Definition chunk_token (c : chunk) : str :=
  match choices c with
  | [] => []
  | first :: _ =>
      match choice_delta first with
      | None => []
      | Some d =>
          match delta_content d with
          | None => []
          | Some token => token
          end
      end
  end.

(** The [for chunk in stream] loop: [full_response += token] for the
    non-empty tokens. *)
Fixpoint stream_loop (stream : list chunk) (full_response : str) : str :=
  match stream with
  | [] => full_response
  | c :: rest =>
      let token := chunk_token c in
      stream_loop rest
        (if truthy token then full_response ++ token else full_response)
  end.

Section Script.

Context {World Vec : Type} (svc : Services World Vec).

Local Notation "'St'" := (state World).

Definition call {A} (op : World -> result A * World) : M St A :=
  fun s =>
    let (r, w) := op (world s) in
    (r, {| session := session s; world := w |}).

Definition get_session : M St session_state :=
  fun s => (Ok (session s), s).

Definition put_session (ss : session_state) : M St unit :=
  fun s => (Ok tt, {| session := ss; world := world s |}).

(** [st.session_state.messages = value]. *)
Definition set_messages (value : list message) : M St unit :=
  ss <- get_session ;;
  put_session {| messages := Some value; suggested_input := suggested_input ss |}.

(** [st.session_state.suggested_input = value]. *)
Definition set_suggested_input (value : str) : M St unit :=
  ss <- get_session ;;
  put_session {| messages := messages ss; suggested_input := Some value |}.

(** [st.session_state.messages.append(m)]; [AttributeError] when the key
    is not there. *)
Definition append_message (m : message) : M St unit :=
  ss <- get_session ;;
  match messages ss with
  | Some history =>
      put_session {| messages := Some (history ++ [m]);
                     suggested_input := suggested_input ss |}
  | None => raise (Exception (lit "messages"))
  end.

Definition embed_query (text : str) : M St Vec :=
  call (embeddings_create svc text).

(** The [for r in results] loop of [retrieve_documents]. *)
Fixpoint retrieve_loop (results : list hit) (docs : list context_doc)
    : result (list context_doc) :=
  match results with
  | [] => Ok docs
  | r :: rest =>
      match getitem r (lit "content") with
      | Raise e => Raise e
      | Ok c =>
      match getitem r (lit "doc") with
      | Raise e => Raise e
      | Ok d =>
      match getitem r (lit "page") with
      | Raise e => Raise e
      | Ok p =>
      match getitem r (lit "content_type") with
      | Raise e => Raise e
      | Ok t =>
          retrieve_loop rest
            (docs ++ [ {| content := c; doc := d; page := p; content_type := t |} ])
      end end end end
  end.

Definition retrieve_documents (query : str) (top_k : Z) : M St (list context_doc) :=
  vector <- embed_query query ;;
  results <- call (search svc vector top_k) ;;
  fun s => (retrieve_loop results [], s).

(** The default of the [top_k] parameter of [retrieve_documents]. *)
Definition default_top_k : Z := 5.

(** The loop over the suggested questions and their buttons. *)
Fixpoint suggested_loop (ev : interaction) (i : nat) (questions : list str)
    : M St unit :=
  match questions with
  | [] => ret tt
  | question :: rest =>
      when (suggested_button ev i) (set_suggested_input question) ;;;
      suggested_loop ev (S i) rest
  end.

(** [openai_client, search_client = init_clients()]. *)
Definition init_clients : M St unit :=
  match init_clients_error svc with
  | Some msg => raise (Exception msg)
  | None => ret tt
  end.

(** The body of [if user_input:]: one chat turn. *)
Definition chat_turn (user_input : str) : M St unit :=
  append_message {| role := lit "user"; msg_content := user_input |} ;;;
  contexts <- retrieve_documents user_input default_top_k ;;
  stream <- call (generate_answer_stream svc user_input contexts) ;;
  let full_response := stream_loop stream [] in
  append_message {| role := lit "assistant"; msg_content := full_response |}.

(** One run of the script, top to bottom. Rendering calls change no
    state and are left out. *)
Definition script (ev : interaction) : M St unit :=
  suggested_loop ev 0 suggested_questions ;;;
  when (clear_button ev) (set_messages [] ;;; raise RerunException) ;;;
  init_clients ;;;
  ss <- get_session ;;
  when (match messages ss with None => true | Some _ => false end)
       (set_messages []) ;;;
  let user_input := chat_input ev in
  ss <- get_session ;;
  user_input <-
    match suggested_input ss with
    | Some q =>
        put_session {| messages := messages ss; suggested_input := None |} ;;;
        ret (Some q)
    | None => ret user_input
    end ;;
  match input_truthy user_input with
  | Some text => chat_turn text
  | None => ret tt
  end.

(** Streamlit's runner: a run that ends in [st.rerun()] is followed by a
    fresh run in which no widget reports an interaction. [None]: out of
    fuel. *)
Fixpoint run (fuel : nat) (ev : interaction) (s : St)
    : option (result unit * St) :=
  match fuel with
  | O => None
  | S fuel' =>
      match script ev s with
      | (Raise RerunException, s') => run fuel' NoInteraction s'
      | other => Some other
      end
  end.

Definition handle_interaction (ev : interaction) (s : St)
    : option (result unit * St) :=
  run 2 ev s.

(** The chat history of a session: its [messages], none before the first
    run. *)
Definition history (s : St) : list message :=
  match messages (session s) with
  | Some h => h
  | None => []
  end.

(** The question a run asks, if any: the suggested question of a clicked
    button, or a non-empty chat input. *)
Definition asked (ev : interaction) : option str :=
  match ev with
  | ClickSuggested i => nth_error suggested_questions i
  | SubmitChatInput text => input_truthy (Some text)
  | _ => None
  end.

(** The state once the script has made sure [messages] exists and no
    suggested question is pending. *)
Definition with_messages (s : St) : St :=
  {| session := {| messages := Some (history s); suggested_input := None |};
     world := world s |}.

(** The two messages of a turn. *)
Definition user_message (text : str) : message :=
  {| role := lit "user"; msg_content := text |}.

Definition assistant_message (text : str) : message :=
  {| role := lit "assistant"; msg_content := text |}.

(** A result and the dict built from it hold the same four fields. *)
Definition built_from (r : hit) (d : context_doc) : Prop :=
  getitem r (lit "content") = Ok (content d) /\
  getitem r (lit "doc") = Ok (doc d) /\
  getitem r (lit "page") = Ok (page d) /\
  getitem r (lit "content_type") = Ok (content_type d).

(** The states a session goes through: it starts with an empty
    [session_state]; the user interacts; the services live their life. *)
Inductive reachable : St -> Prop :=
| reach_start (w : World) :
    reachable {| session := empty_session; world := w |}
| reach_interaction (s s' : St) (ev : interaction) (r : result unit) :
    reachable s -> handle_interaction ev s = Some (r, s') -> reachable s'
| reach_world (s : St) (w : World) :
    reachable s -> reachable {| session := session s; world := w |}.

End Script.

End App.

(* ------------------------------------------------------------------ *)
(** * A small world to run the definitions in *)
(* ------------------------------------------------------------------ *)

Module Demo.

(** Services for a PDF of two pages in which the vision call fails on
    the first page. The world counts the calls made; the embedding of a
    text is its length. *)
Definition ingest_services : Ingest.Services nat nat :=
  {| Ingest.mkdtemp := fun w => (Ok (lit "/tmp/ingest"), S w);
     Ingest.cleanup := fun _ w => (Ok tt, S w);
     Ingest.fitz_open := fun _ w => (Ok 2%nat, S w);
     Ingest.save_pixmap := fun _ _ _ w => (Ok tt, S w);
     Ingest.convert_to_jpeg :=
       fun image_path w =>
         (Ok (firstn (List.length image_path - 4) image_path ++ lit ".jpg"), S w);
     Ingest.os_path_getsize := fun _ w => (Ok 204800%N, S w);
     Ingest.extract_page_detail :=
       fun image_path w =>
         if str_eqb image_path (lit "/tmp/ingest/page_1.jpg")
         then (Raise (Exception (lit "vision timeout")), S w)
         else (Ok (lit "| Revenue | 42 |"), S w);
     Ingest.generate_page_summary := fun _ w => (Ok (lit "- Revenue: 42"), S w);
     Ingest.create_embedding := fun text w => (Ok (List.length text), S w);
     Ingest.upload_documents := fun _ w => (Ok tt, S w) |}.

Definition ingest_start : Ingest.state nat nat :=
  {| Ingest.world := 0%nat; Ingest.trace := [] |}.

(** A later run: the services have answered more calls, and something
    was printed before. *)
Definition ingest_later : Ingest.state nat nat :=
  {| Ingest.world := 40%nat;
     Ingest.trace := [Ingest.Printed (Ingest.LogStarting (lit "report.pdf"))] |}.

(** The batch [upload_page] builds for page 3 of ["report 2024"] under
    these services. *)
Definition batch (year detail_text summary_text : str)
    : list (Ingest.document nat) :=
  [ Ingest.page_document (lit "report 2024") 3 year Ingest.default_section
      detail_text page_detail (List.length detail_text);
    Ingest.page_document (lit "report 2024") 3 year Ingest.default_section
      summary_text page_summary (List.length summary_text) ].

(** A search service that answers every query with the same two results,
    whatever [k] is asked for; the chat model streams two tokens. *)
Definition hit1 : App.hit :=
  [ (lit "content", App.VStr (lit "| Revenue | 42 |"));
    (lit "doc", App.VStr (lit "report 2024"));
    (lit "page", App.VInt 3);
    (lit "content_type", App.VStr page_detail) ].

Definition hit2 : App.hit :=
  [ (lit "content", App.VStr (lit "- Revenue: 42"));
    (lit "doc", App.VStr (lit "report 2024"));
    (lit "page", App.VInt 3);
    (lit "content_type", App.VStr page_summary) ].

Definition token_chunk (token : str) : App.chunk :=
  {| App.choices :=
       [ {| App.choice_delta := Some {| App.delta_content := Some token |} |} ] |}.

Definition app_services : App.Services nat nat :=
  {| App.init_clients_error := None;
     App.embeddings_create := fun text w => (Ok (List.length text), S w);
     App.search := fun _ _ w => (Ok [hit1; hit2], S w);
     App.generate_answer_stream :=
       fun _ _ w =>
         (Ok [ token_chunk (lit "Revenue ");
               {| App.choices := [] |};
               token_chunk (lit "is 42") ], S w) |}.

Definition app_start : App.state nat :=
  {| App.session := App.empty_session; App.world := 0%nat |}.

(** The session after the user has asked one question. *)
Definition app_after_turn : App.state nat :=
  match App.handle_interaction app_services
          (App.SubmitChatInput (lit "What is the revenue?")) app_start with
  | Some (_, s) => s
  | None => app_start
  end.

End Demo.

(* ------------------------------------------------------------------ *)
(** * Reading the trace of an ingestion *)
(* ------------------------------------------------------------------ *)

Module Observe.

Import Ingest.

(** The events of [s'] that were not yet in [s]. *)
Definition new_events {World Vec} (s s' : state World Vec) : list (event Vec) :=
  skipn (List.length (trace s)) (trace s').

(** The records handed to [upload_documents], batch after batch. *)
Definition uploaded {Vec} (evs : list (event Vec)) : list (document Vec) :=
  flat_map (fun e => match e with
                     | UploadDocuments documents => documents
                     | Printed _ => []
                     end) evs.

(** The lines printed. *)
Definition printed {Vec} (evs : list (event Vec)) : list log_line :=
  flat_map (fun e => match e with
                     | Printed line => [line]
                     | UploadDocuments _ => []
                     end) evs.

(** The pages announced by a "Processing page" line, in order. *)
Definition processing_pages (lines : list log_line) : list Z :=
  flat_map (fun line => match line with
                        | LogProcessing page_num => [page_num]
                        | _ => []
                        end) lines.

(** The pages reported as stored, in order. *)
Definition stored_pages (lines : list log_line) : list Z :=
  flat_map (fun line => match line with
                        | LogStored page_num _ => [page_num]
                        | _ => []
                        end) lines.

(** The pages reported as failed, in order. *)
Definition failed_pages (lines : list log_line) : list Z :=
  flat_map (fun line => match line with
                        | LogFailed page_num _ => [page_num]
                        | _ => []
                        end) lines.

(** The pages reported as stored or as failed, in order. *)
Definition settled_pages (lines : list log_line) : list Z :=
  flat_map (fun line => match line with
                        | LogStored page_num _ => [page_num]
                        | LogFailed page_num _ => [page_num]
                        | _ => []
                        end) lines.

(** The search client has returned on the batch of the two records of
    page [page_num], and both records are among [ups]. *)
Definition batch_accepted {World Vec} (svc : Services World Vec)
    (doc_name year : str) (page_num : Z) (ups : list (document Vec)) : Prop :=
  exists detail_text summary_text v1 v2 w w',
    let documents :=
      [ page_document doc_name page_num year default_section
          detail_text page_detail v1;
        page_document doc_name page_num year default_section
          summary_text page_summary v2 ] in
    upload_documents svc documents w = (Ok tt, w') /\
    incl documents ups.

(** The entry [pdf_to_images] appends for [page_index]. *)
Definition page_image (output_dir : str) (page_index : nat) : Z * str :=
  ((Z.of_nat page_index + 1)%Z,
   os_path_join output_dir
     (lit "page_" ++ str_of_int (Z.of_nat page_index + 1) ++ lit ".png")).

End Observe.

(* ------------------------------------------------------------------ *)
(** * [ingest_pdf.py]: [convert_to_jpeg], call by call *)
(* ------------------------------------------------------------------ *)

Module Convert.

(** [text.startswith(prefix)]. *)
Fixpoint startswith (prefix text : str) : bool :=
  match prefix, text with
  | [], _ => true
  | _ :: _, [] => false
  | p :: prefix', c :: text' => (p =? c)%N && startswith prefix' text'
  end.

(** The scan of [text.replace(old, new)] for a non-empty [old]: left to
    right, each occurrence found is replaced and skipped whole ([skip]
    counts what is left of it), the other characters are copied. *)
Fixpoint replace_scan (old new : str) (skip : nat) (text : str) : str :=
  match text with
  | [] => []
  | c :: rest =>
      match skip with
      | S k => replace_scan old new k rest
      | O =>
          if startswith old text
          then new ++ replace_scan old new (List.length old - 1) rest
          else c :: replace_scan old new 0 rest
      end
  end.

(** [text.replace(old, new)]; an empty [old] matches before every
    character and at the end. *)
Definition replace (old new text : str) : str :=
  match old with
  | [] => new ++ flat_map (fun c => c :: new) text
  | _ :: _ => replace_scan old new 0 text
  end.

(** [old in text]: [old] occurs somewhere in [text]. *)
Fixpoint contains (old text : str) : bool :=
  startswith old text ||
  match text with
  | [] => false
  | _ :: rest => contains old rest
  end.

(** The calls [convert_to_jpeg] makes, and what can be asked of the file
    system afterwards. *)
Record Services (World Image : Type) := {
  (* [Image.open(image_path).convert("RGB")] *)
  Image_open_convert : str -> World -> result Image * World;
  (* [img.save(jpg_path, "JPEG", quality=quality)] *)
  Image_save : Image -> str -> Z -> World -> result unit * World;
  os_remove : str -> World -> result unit * World;
  (* [os.path.exists(path)] *)
  os_path_exists : World -> str -> bool
}.

Section Body.

Context {World Image : Type} (svc : Services World Image).

(** [image_path.replace(".png", ".jpg")]. *)
Definition jpg_path_of (image_path : str) : str :=
  replace (lit ".png") (lit ".jpg") image_path.

Definition convert_to_jpeg (image_path : str) (quality : Z) : M World str :=
  img <- Image_open_convert svc image_path ;;
  let jpg_path := jpg_path_of image_path in
  Image_save svc img jpg_path quality ;;;
  os_remove svc image_path ;;;
  ret jpg_path.

(** The default of the [quality] parameter. *)
Definition default_quality : Z := 95.

(** What [os.remove] promises: the path it removed is not there after
    it returns. *)
Definition remove_removes : Prop :=
  forall path w w',
    os_remove svc path w = (Ok tt, w') -> os_path_exists svc w' path = false.

End Body.

(** A file system that is the list of its paths: opening a missing file
    raises, saving adds the path, removing a missing file raises. *)
Definition mem (path : str) (files : list str) : bool :=
  existsb (str_eqb path) files.

Definition list_fs : Services (list str) str :=
  {| Image_open_convert :=
       fun path files =>
         if mem path files then (Ok path, files)
         else (Raise (Exception (lit "FileNotFoundError")), files);
     Image_save := fun _ path _ files => (Ok tt, path :: files);
     os_remove :=
       fun path files =>
         if mem path files
         then (Ok tt, filter (fun f => negb (str_eqb path f)) files)
         else (Raise (Exception (lit "FileNotFoundError")), files);
     os_path_exists := fun files path => mem path files |}.

End Convert.

(* ------------------------------------------------------------------ *)
(** * The shape of a chat history *)
(* ------------------------------------------------------------------ *)

Module Turns.

Import App.

(** A history made of turns: each turn is a user message, followed by
    an assistant message unless the turn failed. *)
Inductive turns : list message -> Prop :=
| turns_nil : turns []
| turns_unanswered (h : list message) (question : str) :
    turns h -> turns (h ++ [user_message question])
| turns_answered (h : list message) (question answer : str) :
    turns h ->
    turns (h ++ [user_message question; assistant_message answer]).

(** The number of messages of a role. *)
Definition count_role (r : str) (h : list message) : nat :=
  List.length (filter (fun m => str_eqb (role m) r) h).

End Turns.

(* ------------------------------------------------------------------ *)
(** * Worlds in which something fails *)
(* ------------------------------------------------------------------ *)

Module Faults.

(** The PDF cannot be opened. *)
Definition unreadable_pdf : Ingest.Services nat nat :=
  {| Ingest.mkdtemp := Ingest.mkdtemp Demo.ingest_services;
     Ingest.cleanup := Ingest.cleanup Demo.ingest_services;
     Ingest.fitz_open :=
       fun _ w => (Raise (Exception (lit "cannot open broken document")), S w);
     Ingest.save_pixmap := Ingest.save_pixmap Demo.ingest_services;
     Ingest.convert_to_jpeg := Ingest.convert_to_jpeg Demo.ingest_services;
     Ingest.os_path_getsize := Ingest.os_path_getsize Demo.ingest_services;
     Ingest.extract_page_detail := Ingest.extract_page_detail Demo.ingest_services;
     Ingest.generate_page_summary :=
       Ingest.generate_page_summary Demo.ingest_services;
     Ingest.create_embedding := Ingest.create_embedding Demo.ingest_services;
     Ingest.upload_documents := Ingest.upload_documents Demo.ingest_services |}.

(** The embedding service refuses the second text it is given. *)
Definition second_embedding_fails : Ingest.Services nat nat :=
  {| Ingest.mkdtemp := Ingest.mkdtemp Demo.ingest_services;
     Ingest.cleanup := Ingest.cleanup Demo.ingest_services;
     Ingest.fitz_open := Ingest.fitz_open Demo.ingest_services;
     Ingest.save_pixmap := Ingest.save_pixmap Demo.ingest_services;
     Ingest.convert_to_jpeg := Ingest.convert_to_jpeg Demo.ingest_services;
     Ingest.os_path_getsize := Ingest.os_path_getsize Demo.ingest_services;
     Ingest.extract_page_detail := Ingest.extract_page_detail Demo.ingest_services;
     Ingest.generate_page_summary :=
       Ingest.generate_page_summary Demo.ingest_services;
     Ingest.create_embedding :=
       fun text w =>
         match w with
         | O => (Ok (List.length text), S w)
         | S _ => (Raise (Exception (lit "rate limit")), S w)
         end;
     Ingest.upload_documents := Ingest.upload_documents Demo.ingest_services |}.

(** The user interrupts the run while the first page is with the vision
    model. *)
Definition interrupted : Ingest.Services nat nat :=
  {| Ingest.mkdtemp := Ingest.mkdtemp Demo.ingest_services;
     Ingest.cleanup := Ingest.cleanup Demo.ingest_services;
     Ingest.fitz_open := Ingest.fitz_open Demo.ingest_services;
     Ingest.save_pixmap := Ingest.save_pixmap Demo.ingest_services;
     Ingest.convert_to_jpeg := Ingest.convert_to_jpeg Demo.ingest_services;
     Ingest.os_path_getsize := Ingest.os_path_getsize Demo.ingest_services;
     Ingest.extract_page_detail :=
       fun _ w => (Raise (BaseException (lit "KeyboardInterrupt")), S w);
     Ingest.generate_page_summary :=
       Ingest.generate_page_summary Demo.ingest_services;
     Ingest.create_embedding := Ingest.create_embedding Demo.ingest_services;
     Ingest.upload_documents := Ingest.upload_documents Demo.ingest_services |}.

(** The temporary directory cannot be removed, and the PDF cannot be
    opened either. *)
Definition undeletable_tmpdir : Ingest.Services nat nat :=
  {| Ingest.mkdtemp := Ingest.mkdtemp Demo.ingest_services;
     Ingest.cleanup :=
       fun _ w => (Raise (Exception (lit "directory not empty")), S w);
     Ingest.fitz_open :=
       fun _ w => (Raise (Exception (lit "cannot open broken document")), S w);
     Ingest.save_pixmap := Ingest.save_pixmap Demo.ingest_services;
     Ingest.convert_to_jpeg := Ingest.convert_to_jpeg Demo.ingest_services;
     Ingest.os_path_getsize := Ingest.os_path_getsize Demo.ingest_services;
     Ingest.extract_page_detail := Ingest.extract_page_detail Demo.ingest_services;
     Ingest.generate_page_summary :=
       Ingest.generate_page_summary Demo.ingest_services;
     Ingest.create_embedding := Ingest.create_embedding Demo.ingest_services;
     Ingest.upload_documents := Ingest.upload_documents Demo.ingest_services |}.

(** The configuration holds no endpoint and no key: the clients cannot
    be built. *)
Definition unconfigured : App.Services nat nat :=
  {| App.init_clients_error := Some (lit "Missing credentials");
     App.embeddings_create := App.embeddings_create Demo.app_services;
     App.search := App.search Demo.app_services;
     App.generate_answer_stream := App.generate_answer_stream Demo.app_services |}.

(** The search service is down. *)
Definition search_down : App.Services nat nat :=
  {| App.init_clients_error := None;
     App.embeddings_create := App.embeddings_create Demo.app_services;
     App.search := fun _ _ w => (Raise (Exception (lit "503")), S w);
     App.generate_answer_stream := App.generate_answer_stream Demo.app_services |}.

(** A result that lacks the ["page"] field. *)
Definition hit_without_page : App.hit :=
  [ (lit "content", App.VStr (lit "- Revenue: 42"));
    (lit "doc", App.VStr (lit "report 2024"));
    (lit "content_type", App.VStr page_summary) ].

(** The search service yields a complete result, then an incomplete
    one. *)
Definition search_partial : App.Services nat nat :=
  {| App.init_clients_error := None;
     App.embeddings_create := App.embeddings_create Demo.app_services;
     App.search := fun _ _ w => (Ok [Demo.hit1; hit_without_page], S w);
     App.generate_answer_stream := App.generate_answer_stream Demo.app_services |}.

End Faults.

(* ------------------------------------------------------------------ *)
(** * Properties of document keys *)
(* ------------------------------------------------------------------ *)

Lemma key_set_allowed (c : char) :
  Re.in_set key_set c = allowed_key_char c.
Proof.
  unfold Re.in_set, key_set, allowed_key_char, is_letter, is_digit.
  cbn [existsb Re.item_matches].
  change (chr "a") with 97%N. change (chr "z") with 122%N.
  change (chr "A") with 65%N. change (chr "Z") with 90%N.
  change (chr "0") with 48%N. change (chr "9") with 57%N.
  change (chr "_") with 95%N. change (chr "-") with 45%N.
  change (chr "=") with 61%N.
  rewrite orb_false_r, !orb_assoc. reflexivity.
Qed.

Lemma safe_id_cons (c : char) (text : str) :
  safe_id (c :: text) =
  (if allowed_key_char c then c else 95%N) :: safe_id text.
Proof.
  unfold safe_id. cbn [Re.sub]. unfold Re.complement_set at 1.
  rewrite key_set_allowed.
  destruct (allowed_key_char c); reflexivity.
Qed.

(** The regular-expression substitution computes the sanitized form. *)
Lemma safe_id_sanitized_form (text : str) :
  safe_id text = sanitized_form text.
Proof.
  induction text as [|c text IH]; [reflexivity|].
  rewrite safe_id_cons, IH. reflexivity.
Qed.

Lemma underscore_allowed : allowed_key_char 95%N = true.
Proof. reflexivity. Qed.

(** C3: every character of [safe_id text] is a letter, a digit, an
    underscore, a hyphen or an equals sign, whatever [text] is. *)
Theorem safe_id_only_allowed_chars (text : str) :
  Forall (fun c => allowed_key_char c = true) (safe_id text).
Proof.
  induction text as [|c text IH].
  - constructor.
  - rewrite safe_id_cons. constructor; [|exact IH].
    destruct (allowed_key_char c) eqn:E; [exact E | exact underscore_allowed].
Qed.

(** [safe_id] leaves a string of allowed characters as it is. *)
Lemma safe_id_fixes_allowed (text : str) :
  Forall (fun c => allowed_key_char c = true) text -> safe_id text = text.
Proof.
  induction 1 as [|c text Hc _ IH]; [reflexivity|].
  rewrite safe_id_cons, Hc, IH. reflexivity.
Qed.

(** C9: [safe_id] is idempotent: sanitizing a sanitized name changes
    nothing. *)
Theorem safe_id_idempotent (s : str) :
  safe_id (safe_id s) = safe_id s.
Proof.
  apply safe_id_fixes_allowed, safe_id_only_allowed_chars.
Qed.

(** When two names get the same key: they have the same length and, place
    by place, the same character or two characters that both end up as an
    underscore (a disallowed character or the underscore itself). *)
Lemma safe_id_collision_iff (a b : str) :
  safe_id a = safe_id b <->
  Forall2 (fun x y =>
             x = y \/
             ((allowed_key_char x = false \/ x = 95%N) /\
              (allowed_key_char y = false \/ y = 95%N))) a b.
Proof.
  split.
  - revert b. induction a as [|x a IH]; intros [|y b] H;
      rewrite ?safe_id_cons in H; try discriminate H; constructor.
    + injection H as Hxy _.
      destruct (allowed_key_char x) eqn:Ex; destruct (allowed_key_char y) eqn:Ey;
        subst; auto.
    + injection H as _ H. apply IH. exact H.
  - induction 1 as [|x y a b Hxy _ IH]; [reflexivity|].
    rewrite !safe_id_cons, IH. f_equal.
    destruct Hxy as [ -> | [[Hx| -> ] [Hy| -> ]]]; rewrite ?Hx, ?Hy; reflexivity.
Qed.

(** C4: two distinct names that differ only in disallowed characters get
    the same key from [safe_id] only if their sanitized forms are the
    same string. *)
Theorem safe_id_collision_needs_same_sanitized_form (a b : str) :
  a <> b ->
  differ_only_in_disallowed a b ->
  safe_id a = safe_id b ->
  sanitized_form a = sanitized_form b.
Proof.
  intros _ _ Hkey.
  rewrite <- !safe_id_sanitized_form. exact Hkey.
Qed.

Lemma safe_id_collision_witness :
  lit "a b" <> lit "a.b" /\
  differ_only_in_disallowed (lit "a b") (lit "a.b") /\
  safe_id (lit "a b") = safe_id (lit "a.b") /\
  sanitized_form (lit "a b") = sanitized_form (lit "a.b").
Proof.
  assert (Hne : lit "a b" <> lit "a.b") by (vm_compute; discriminate).
  assert (Hd : differ_only_in_disallowed (lit "a b") (lit "a.b"))
    by (vm_compute; reflexivity).
  assert (Hk : safe_id (lit "a b") = safe_id (lit "a.b"))
    by (vm_compute; reflexivity).
  split; [exact Hne|]. split; [exact Hd|]. split; [exact Hk|].
  exact (safe_id_collision_needs_same_sanitized_form Hne Hd Hk).
Defined.

(* ------------------------------------------------------------------ *)
(** * Properties of record ids *)
(* ------------------------------------------------------------------ *)

Lemma lit_String (a : ascii) (s : string) :
  lit (String a s) = chr a :: lit s.
Proof. reflexivity. Qed.

Lemma chr_inj (a b : ascii) : chr a = chr b -> a = b.
Proof.
  unfold chr. intros H.
  rewrite <- (ascii_N_embedding a), <- (ascii_N_embedding b), H.
  reflexivity.
Qed.

Lemma lit_inj (s t : string) : lit s = lit t -> s = t.
Proof.
  revert t. induction s as [|a s IH]; intros [|b t]; try discriminate.
  - reflexivity.
  - rewrite !lit_String. intros H. injection H as Hc Hs.
    apply chr_inj in Hc. apply IH in Hs. subst. reflexivity.
Qed.

(** [str] of an int is injective: different numbers print differently. *)
Lemma str_of_int_inj (m n : Z) : str_of_int m = str_of_int n -> m = n.
Proof.
  unfold str_of_int. intros H. apply lit_inj in H.
  assert (Hnn : forall z, Z.to_int z <> Decimal.Pos Decimal.Nil /\
                          Z.to_int z <> Decimal.Neg Decimal.Nil).
  { intros [|p|p]; cbn; split; try discriminate;
      intros E; injection E as E; exact (Unsigned.to_uint_nonnil p E). }
  apply (f_equal NilZero.int_of_string) in H.
  rewrite !NilZero.isi in H by apply Hnn.
  injection H as H. apply DecimalZ.to_int_inj. exact H.
Qed.

Lemma digits_no_underscore (d : Decimal.uint) :
  ~ In 95%N (lit (NilEmpty.string_of_uint d)).
Proof.
  induction d; cbn [NilEmpty.string_of_uint]; try rewrite lit_String;
    intros H; (destruct H as [H|H]; [discriminate H | exact (IHd H)]) || exact H.
Qed.

(** No underscore in the decimal form of an int. *)
Lemma str_of_int_no_underscore (n : Z) : ~ In 95%N (str_of_int n).
Proof.
  assert (Hu : forall d, ~ In 95%N (lit (NilZero.string_of_uint d))).
  { intros d. destruct d; try apply digits_no_underscore.
    cbn. intros [H|[]]. discriminate H. }
  unfold str_of_int. destruct (Z.to_int n) as [d|d]; cbn [NilZero.string_of_int].
  - apply Hu.
  - rewrite lit_String. intros [H|H]; [discriminate H | exact (Hu d H)].
Qed.

(** A string is cut in one way only at its last occurrence of [u]. *)
Lemma split_at_last (u : char) (x1 x2 d1 d2 : str) :
  ~ In u d1 -> ~ In u d2 ->
  x1 ++ u :: d1 = x2 ++ u :: d2 ->
  x1 = x2 /\ d1 = d2.
Proof.
  intros H1 H2. revert x2.
  induction x1 as [|a x1 IH]; intros [|b x2] H; cbn in H.
  - injection H as H. split; [reflexivity | exact H].
  - injection H as _ H. exfalso. apply H1. rewrite H.
    apply in_or_app. right. left. reflexivity.
  - injection H as _ H. exfalso. apply H2. rewrite <- H.
    apply in_or_app. right. left. reflexivity.
  - injection H as Hab H. destruct (IH _ H) as [Hx Hd].
    subst. split; reflexivity.
Qed.

(** The two content types end in different letters. *)
Lemma detail_summary_tail (x y : str) : x ++ page_detail <> y ++ page_summary.
Proof.
  change page_detail with (lit "page_detai" ++ [chr "l"]).
  change page_summary with (lit "page_summar" ++ [chr "y"]).
  rewrite !app_assoc. intros H. apply app_inj_tail in H.
  destruct H as [_ H]. discriminate H.
Qed.

(** The id of a record gives back the name, the page and the content
    type it was made of: [format_id] is injective on names, pages and the
    two content types. *)
Lemma format_id_inj (n1 n2 : str) (p1 p2 : Z) (t1 t2 : str) :
  In t1 [page_detail; page_summary] ->
  In t2 [page_detail; page_summary] ->
  format_id n1 p1 t1 = format_id n2 p2 t2 ->
  n1 = n2 /\ p1 = p2 /\ t1 = t2.
Proof.
  intros Ht1 Ht2 H. unfold format_id in H.
  rewrite !app_assoc in H.
  assert (Ht : t1 = t2).
  { destruct Ht1 as [<-|[<-|[]]]; destruct Ht2 as [<-|[<-|[]]];
      try reflexivity; exfalso.
    - exact (detail_summary_tail _ _ H).
    - exact (detail_summary_tail _ _ (eq_sym H)). }
  subst t2.
  apply app_inv_tail in H. apply app_inv_tail in H.
  change (lit "_page_") with (lit "_page" ++ [95%N]) in H.
  rewrite <- !app_assoc in H. cbn [app] in H.
  rewrite !app_assoc in H.
  apply split_at_last in H; try apply str_of_int_no_underscore.
  destruct H as [Hn Hp].
  apply app_inv_tail in Hn. apply str_of_int_inj in Hp.
  repeat split; assumption.
Qed.

(** C5: the composite key is unique. Two different triples of a sanitized
    document name, a positive page number and one of the two content
    types get different record ids from [upload_page]. *)
Theorem record_id_unique (d1 d2 : str) (p1 p2 : Z) (t1 t2 : str) :
  (0 < p1)%Z -> (0 < p2)%Z ->
  In t1 [page_detail; page_summary] ->
  In t2 [page_detail; page_summary] ->
  (safe_id d1, p1, t1) <> (safe_id d2, p2, t2) ->
  record_id d1 p1 t1 <> record_id d2 p2 t2.
Proof.
  intros _ _ Ht1 Ht2 Hne Hid. apply Hne.
  destruct (format_id_inj _ _ _ _ Ht1 Ht2 Hid) as (-> & -> & ->).
  reflexivity.
Qed.

Lemma record_id_unique_witness :
  record_id (lit "report 2024") 1 page_detail <>
  record_id (lit "report 2024") 1 page_summary.
Proof.
  apply record_id_unique; try lia.
  - left. reflexivity.
  - right. left. reflexivity.
  - intros H. vm_compute in H. discriminate H.
Defined.

(* ------------------------------------------------------------------ *)
(** * Properties of the ingestion pipeline *)
(* ------------------------------------------------------------------ *)

Section IngestFacts.

Import Ingest.

Context {World Vec : Type} (svc : Services World Vec).

Local Notation "'St'" := (state World Vec).

(** ** The trace only grows *)

Lemma extends_ret {A} (a : A) : extends_trace (ret a : M St A).
Proof. intros s. exists []. cbn. rewrite app_nil_r. reflexivity. Qed.

Lemma extends_call {A} (op : World -> result A * World) :
  extends_trace (call op : M St A).
Proof.
  intros s. exists []. unfold call. destruct (op (world s)).
  cbn. rewrite app_nil_r. reflexivity.
Qed.

Lemma extends_emit (e : event Vec) : extends_trace (emit e : M St unit).
Proof. intros s. exists [e]. reflexivity. Qed.

Lemma extends_bind {A B} (c : M St A) (k : A -> M St B) :
  extends_trace c -> (forall a, extends_trace (k a)) -> extends_trace (bind c k).
Proof.
  intros Hc Hk s. unfold bind. destruct (Hc s) as [evs Hevs].
  destruct (c s) as [[a|e] s1]; cbn [snd] in *.
  - destruct (Hk a s1) as [evs' Hevs']. exists (evs ++ evs').
    rewrite Hevs', Hevs, app_assoc. reflexivity.
  - exists evs. exact Hevs.
Qed.

Lemma extends_try {A} (body : M St A) (handler : str -> M St A) :
  extends_trace body -> (forall msg, extends_trace (handler msg)) ->
  extends_trace (try_except_Exception body handler).
Proof.
  intros Hb Hh s. unfold try_except_Exception. destruct (Hb s) as [evs Hevs].
  destruct (body s) as [[a|[msg|msg|]] s1]; cbn [snd] in *;
    try (exists evs; exact Hevs).
  destruct (Hh msg s1) as [evs' Hevs']. exists (evs ++ evs').
  rewrite Hevs', Hevs, app_assoc. reflexivity.
Qed.

Create HintDb trace.
#[local] Hint Resolve extends_ret extends_call extends_emit extends_try : trace.
#[local] Hint Extern 2 (extends_trace (bind _ _)) =>
  apply extends_bind; [|intros ?] : trace.
#[local] Hint Extern 1 (extends_trace (print _)) => unfold print : trace.

Lemma extends_upload_page_loop (doc_name : str) (page_num : Z)
    (year section safe_doc_name : str) (items : list (str * str))
    (documents : list (document Vec)) :
  extends_trace (upload_page_loop svc doc_name page_num year section
                   safe_doc_name items documents).
Proof.
  revert documents. induction items as [|[c t] items IH]; intros documents;
    cbn [upload_page_loop]; auto with trace.
Qed.

Lemma extends_upload_page (doc_name : str) (page_num : Z)
    (year detail_text summary_text section : str) :
  extends_trace (upload_page svc doc_name page_num year detail_text
                   summary_text section).
Proof.
  unfold upload_page. pose proof extends_upload_page_loop.
  auto 8 with trace.
Qed.

Lemma extends_process_page (doc_name year : str) (page_num : Z) (image_path : str) :
  extends_trace (process_page svc doc_name year page_num image_path).
Proof.
  unfold process_page. pose proof extends_upload_page.
  auto 12 with trace.
Qed.

Lemma extends_ingest_loop (doc_name year : str) (page_images : list (Z * str)) :
  extends_trace (ingest_loop svc doc_name year page_images).
Proof.
  induction page_images as [|[page_num image_path] rest IH];
    cbn [ingest_loop]; [auto with trace|].
  pose proof extends_process_page. auto 8 with trace.
Qed.

(** The [try] body step by step: the first call that raises ends it with
    that exception; [upload_page] runs once the image is converted and
    measured and both texts are there. *)
Lemma process_page_steps (doc_name year : str) (page_num : Z) (image_path : str)
    (s : St) :
  process_page svc doc_name year page_num image_path s =
  match convert_to_jpeg svc image_path (world s) with
  | (Raise e, w1) => (Raise e, {| world := w1; trace := trace s |})
  | (Ok jpg_path, w1) =>
  match os_path_getsize svc jpg_path w1 with
  | (Raise e, w2) => (Raise e, {| world := w2; trace := trace s |})
  | (Ok size, w2) =>
  match extract_page_detail svc jpg_path w2 with
  | (Raise e, w3) =>
      (Raise e, {| world := w3; trace := trace s ++ [Printed (LogImageSize size)] |})
  | (Ok detail_text, w3) =>
  match generate_page_summary svc detail_text w3 with
  | (Raise e, w4) =>
      (Raise e, {| world := w4; trace := trace s ++ [Printed (LogImageSize size)] |})
  | (Ok summary_text, w4) =>
      upload_page svc doc_name page_num year detail_text summary_text
        default_section
        {| world := w4; trace := trace s ++ [Printed (LogImageSize size)] |}
  end end end end.
Proof.
  unfold process_page, bind, call, print, emit. cbn [world trace].
  destruct (convert_to_jpeg svc image_path (world s)) as [[jpg_path|e] w1];
    [|reflexivity].
  cbn [world trace].
  destruct (os_path_getsize svc jpg_path w1) as [[size|e] w2]; [|reflexivity].
  cbn [world trace].
  destruct (extract_page_detail svc jpg_path w2) as [[detail_text|e] w3];
    [|reflexivity].
  cbn [world trace].
  destruct (generate_page_summary svc detail_text w3) as [[summary_text|e] w4];
    reflexivity.
Qed.

(** One iteration of the page loop, by the outcome of the [try] body. *)
Lemma ingest_loop_cons (doc_name year : str) (page_num : Z) (image_path : str)
    (rest : list (Z * str)) (s : St) :
  ingest_loop svc doc_name year ((page_num, image_path) :: rest) s =
  match process_page svc doc_name year page_num image_path
          (logged (LogProcessing page_num) s) with
  | (Ok _, s') => ingest_loop svc doc_name year rest s'
  | (Raise (Exception msg), s') =>
      ingest_loop svc doc_name year rest (logged (LogFailed page_num msg) s')
  | (Raise e, s') => (Raise e, s')
  end.
Proof.
  cbn [ingest_loop]. unfold bind at 1. unfold print at 1, emit at 1.
  fold (logged (LogProcessing page_num) s).
  unfold bind at 1, try_except_Exception.
  destruct (process_page svc doc_name year page_num image_path
              (logged (LogProcessing page_num) s)) as [[[]|[msg|msg|]] s'];
    reflexivity.
Qed.

(** The page loop over a list cut in two: the second part starts where
    the first part returned. *)
Lemma ingest_loop_app (doc_name year : str) (before rest : list (Z * str)) (s : St) :
  ingest_loop svc doc_name year (before ++ rest) s =
  and_then (ingest_loop svc doc_name year before s)
           (ingest_loop svc doc_name year rest).
Proof.
  revert s. induction before as [|[page_num image_path] before IH]; intros s.
  - reflexivity.
  - rewrite <- app_comm_cons, !ingest_loop_cons.
    destruct (process_page svc doc_name year page_num image_path
                (logged (LogProcessing page_num) s)) as [[[]|[msg|msg|]] s'];
      try apply IH; reflexivity.
Qed.


(** C1: a page whose processing raises an exception does not stop the
    ingestion. Take any page of the PDF, reached after the pages before it
    were handled. If the [try] body raises an [Exception] on it, the loop
    of [ingest_pdf] goes on with the pages after it, from the state the
    failure left plus one printed line that reports the failure; and
    [ingest_pdf] as a whole ends the way that rest of the loop ends. *)
Theorem ingest_pdf_continues_after_failed_page
    (pdf_path doc_name year : str) (before rest : list (Z * str))
    (page_num : Z) (image_path : str)
    (s0 s1 s2 s3 s4 : St) (tmpdir msg : str) :
  call (mkdtemp svc) (logged (LogStarting pdf_path) s0) = (Ok tmpdir, s1) ->
  pdf_to_images svc pdf_path tmpdir s1 =
    (Ok (before ++ (page_num, image_path) :: rest), s2) ->
  ingest_loop svc doc_name year before s2 = (Ok tt, s3) ->
  process_page svc doc_name year page_num image_path
    (logged (LogProcessing page_num) s3) = (Raise (Exception msg), s4) ->
  let s5 := logged (LogFailed page_num msg) s4 in
  ingest_loop svc doc_name year ((page_num, image_path) :: rest) s3 =
    ingest_loop svc doc_name year rest s5 /\
  ingest_pdf svc pdf_path doc_name year s0 =
    and_then (leave_TemporaryDirectory svc tmpdir
                (ingest_loop svc doc_name year rest s5))
             (print LogCompleted) /\
  In (Printed (LogFailed page_num msg))
     (trace (snd (ingest_pdf svc pdf_path doc_name year s0))).
Proof.
  intros Htmp Hpages Hbefore Hfail s5.
  assert (Hstep : ingest_loop svc doc_name year ((page_num, image_path) :: rest) s3 =
                  ingest_loop svc doc_name year rest s5).
  { rewrite ingest_loop_cons, Hfail. reflexivity. }
  split; [exact Hstep|].
  assert (Hpdf : ingest_pdf svc pdf_path doc_name year s0 =
                 and_then (leave_TemporaryDirectory svc tmpdir
                             (ingest_loop svc doc_name year rest s5))
                          (print LogCompleted)).
  { unfold ingest_pdf. unfold bind at 1. unfold print at 1, emit at 1.
    fold (logged (LogStarting pdf_path) s0).
    unfold bind at 1, with_TemporaryDirectory. rewrite Htmp.
    unfold bind at 1. rewrite Hpages.
    rewrite ingest_loop_app, Hbefore. cbn [and_then]. rewrite Hstep.
    destruct (ingest_loop svc doc_name year rest s5) as [[[]|e] s6]; reflexivity. }
  split; [exact Hpdf|].
  rewrite Hpdf.
  destruct (extends_ingest_loop doc_name year rest s5) as [evs Hevs].
  assert (Hin : In (Printed (LogFailed page_num msg))
                   (trace (snd (ingest_loop svc doc_name year rest s5)))).
  { rewrite Hevs. unfold s5, logged. cbn [trace].
    apply in_or_app. left. apply in_or_app. right. left. reflexivity. }
  destruct (ingest_loop svc doc_name year rest s5) as [r6 s6].
  cbn [snd] in Hin. unfold leave_TemporaryDirectory.
  destruct (cleanup svc tmpdir (world s6)) as [[[]|e'] w7];
    destruct r6 as [[]|e]; cbn; try exact Hin;
    apply in_or_app; left; exact Hin.
Qed.

(** What [upload_page] does, by the point where it stops: at the first
    or the second embedding, at the upload, or not at all. *)
Lemma upload_page_outcome (doc_name : str) (page_num : Z)
    (year detail_text summary_text section : str) (s : St) :
  let mk := page_document doc_name page_num year section in
  (exists e w1,
      create_embedding svc detail_text (world s) = (Raise e, w1) /\
      upload_page svc doc_name page_num year detail_text summary_text section s =
      (Raise e, {| world := w1; trace := trace s |})) \/
  (exists v1 w1 e w2,
      create_embedding svc detail_text (world s) = (Ok v1, w1) /\
      create_embedding svc summary_text w1 = (Raise e, w2) /\
      upload_page svc doc_name page_num year detail_text summary_text section s =
      (Raise e, {| world := w2; trace := trace s |})) \/
  (exists v1 w1 v2 w2 r w3,
      create_embedding svc detail_text (world s) = (Ok v1, w1) /\
      create_embedding svc summary_text w1 = (Ok v2, w2) /\
      let documents := [mk detail_text page_detail v1; mk summary_text page_summary v2] in
      upload_documents svc documents w2 = (r, w3) /\
      upload_page svc doc_name page_num year detail_text summary_text section s =
      match r with
      | Ok _ =>
          (Ok tt, {| world := w3;
                     trace := (trace s ++ [UploadDocuments documents]) ++
                              [Printed (LogStored page_num doc_name)] |})
      | Raise e =>
          (Raise e, {| world := w3;
                       trace := trace s ++ [UploadDocuments documents] |})
      end).
Proof.
  intros mk. unfold upload_page, bind, call, emit, print, emit.
  cbn [upload_page_loop]. unfold bind, call, ret. cbn [world trace].
  destruct (create_embedding svc detail_text (world s)) as [[v1|e] w1] eqn:E1.
  2:{ left. exists e, w1. split; reflexivity. }
  right. cbn [world trace].
  destruct (create_embedding svc summary_text w1) as [[v2|e] w2] eqn:E2.
  2:{ left. exists v1, w1, e, w2. repeat split; assumption || reflexivity. }
  right. cbn [world trace app].
  destruct (upload_documents svc
              [mk detail_text page_detail v1; mk summary_text page_summary v2] w2)
    as [r w3] eqn:E3.
  exists v1, w1, v2, w2, r, w3.
  split; [reflexivity|]. split; [exact E2|]. cbn zeta. split; [exact E3|].
  unfold mk, page_document in E3. rewrite E3.
  destruct r as [[]|e]; reflexivity.
Qed.

(** Whatever the outcome, a batch [upload_page] hands to the search
    client is the detail record followed by the summary record. *)
Lemma upload_page_batches (doc_name : str) (page_num : Z)
    (year detail_text summary_text section : str) (s s' : St)
    (r : result unit) (evs : list (event Vec)) (documents : list (document Vec)) :
  upload_page svc doc_name page_num year detail_text summary_text section s = (r, s') ->
  added s s' evs ->
  In (UploadDocuments documents) evs ->
  exists v1 v2,
    documents =
    [ page_document doc_name page_num year section detail_text page_detail v1;
      page_document doc_name page_num year section summary_text page_summary v2 ].
Proof.
  intros Hrun Hadd Hin. unfold added in Hadd.
  destruct (upload_page_outcome doc_name page_num year detail_text summary_text
              section s)
    as [(e & w1 & _ & Hup) | [(v1 & w1 & e & w2 & _ & _ & Hup)
       | (v1 & w1 & v2 & w2 & r' & w3 & _ & _ & _ & Hup)]];
    rewrite Hup in Hrun.
  - injection Hrun as _ <-. cbn [trace] in Hadd.
    rewrite <- (app_nil_r (trace s)) in Hadd at 1.
    apply app_inv_head in Hadd. subst evs. destruct Hin.
  - injection Hrun as _ <-. cbn [trace] in Hadd.
    rewrite <- (app_nil_r (trace s)) in Hadd at 1.
    apply app_inv_head in Hadd. subst evs. destruct Hin.
  - exists v1, v2.
    destruct r' as [[]|e]; injection Hrun as _ <-; cbn [trace] in Hadd;
      rewrite <- ?app_assoc in Hadd; apply app_inv_head in Hadd; subst evs;
      cbn in Hin.
    + destruct Hin as [Hin|[Hin|[]]]; [|discriminate Hin].
      injection Hin as <-. reflexivity.
    + destruct Hin as [Hin|[]]. injection Hin as <-. reflexivity.
Qed.

(** C2: the ids of the records [upload_page] uploads depend on the
    document name and the page number only. Two runs for the same
    document name and page, whatever the services answer and whatever the
    texts, the year and the section are, upload records with the same ids:
    the sanitized name, ["_page_"], the page number, ["_"] and the
    content type. *)
Theorem upload_page_ids_deterministic (doc_name : str) (page_num : Z)
    (year1 detail1 summary1 section1 : str) (s1 s1' : St) (r1 : result unit)
    (year2 detail2 summary2 section2 : str) (s2 s2' : St) (r2 : result unit)
    (evs1 evs2 : list (event Vec)) (docs1 docs2 : list (document Vec)) :
  upload_page svc doc_name page_num year1 detail1 summary1 section1 s1 = (r1, s1') ->
  upload_page svc doc_name page_num year2 detail2 summary2 section2 s2 = (r2, s2') ->
  added s1 s1' evs1 -> In (UploadDocuments docs1) evs1 ->
  added s2 s2' evs2 -> In (UploadDocuments docs2) evs2 ->
  map (@id Vec) docs1 = map (@id Vec) docs2 /\
  map (@id Vec) docs1 =
  [ safe_id doc_name ++ lit "_page_" ++ str_of_int page_num ++ lit "_" ++ page_detail;
    safe_id doc_name ++ lit "_page_" ++ str_of_int page_num ++ lit "_" ++ page_summary ].
Proof.
  intros H1 H2 A1 I1 A2 I2.
  edestruct upload_page_batches as (a1 & b1 & E1); [exact H1|exact A1|exact I1|].
  edestruct upload_page_batches as (a2 & b2 & E2); [exact H2|exact A2|exact I2|].
  subst docs1 docs2.
  split; reflexivity.
Qed.

(** C7: when [upload_page] returns, it has uploaded exactly two records
    in a single call: [upload_documents] was called once, on one batch of
    the two records, in the world the second embedding left, and has
    returned. The first record is of type ["page_detail"] with the detail
    text, the second of type ["page_summary"] with the summary text, each
    with the vector [create_embedding] returned for its own content. *)
Theorem upload_page_uploads_detail_and_summary (doc_name : str) (page_num : Z)
    (year detail_text summary_text section : str) (s s' : St) :
  upload_page svc doc_name page_num year detail_text summary_text section s = (Ok tt, s') ->
  exists v1 w1 v2 w2 d1 d2,
    create_embedding svc detail_text (world s) = (Ok v1, w1) /\
    create_embedding svc summary_text w1 = (Ok v2, w2) /\
    upload_documents svc [d1; d2] w2 = (Ok tt, world s') /\
    added s s' [UploadDocuments [d1; d2]; Printed (LogStored page_num doc_name)] /\
    (content_type d1 = page_detail /\ content d1 = detail_text /\
     contentVector d1 = v1) /\
    (content_type d2 = page_summary /\ content d2 = summary_text /\
     contentVector d2 = v2).
Proof.
  intros Hrun.
  destruct (upload_page_outcome doc_name page_num year detail_text summary_text
              section s)
    as [(e & w1 & _ & Hup) | [(v1 & w1 & e & w2 & _ & _ & Hup)
       | (v1 & w1 & v2 & w2 & r' & w3 & E1 & E2 & E3 & Hup)]];
    rewrite Hup in Hrun; try discriminate Hrun.
  destruct r' as [[]|e]; [|discriminate Hrun].
  injection Hrun as <-.
  exists v1, w1, v2, w2.
  eexists. eexists.
  split; [exact E1|]. split; [exact E2|].
  split; [exact E3|].
  split.
  - unfold added. cbn [trace]. rewrite <- app_assoc. reflexivity.
  - cbn. repeat split; reflexivity.
Qed.

(** C10: every record [upload_page] uploads keeps the document name as
    it was passed in its ["doc"] field, disallowed characters included;
    the sanitized name goes into the ["id"] field only. *)
Theorem upload_page_keeps_original_name (doc_name : str) (page_num : Z)
    (year detail_text summary_text section : str) (s s' : St)
    (r : result unit) (evs : list (event Vec))
    (documents : list (document Vec)) (d : document Vec) :
  upload_page svc doc_name page_num year detail_text summary_text section s = (r, s') ->
  added s s' evs ->
  In (UploadDocuments documents) evs ->
  In d documents ->
  doc d = doc_name /\
  id d = safe_id doc_name ++ lit "_page_" ++ str_of_int page_num ++ lit "_" ++
         content_type d.
Proof.
  intros Hrun Hadd Hin Hd.
  edestruct upload_page_batches as (v1 & v2 & E);
    [exact Hrun|exact Hadd|exact Hin|].
  subst documents.
  destruct Hd as [<-|[<-|[]]]; split; reflexivity.
Qed.

End IngestFacts.

(* ------------------------------------------------------------------ *)
(** * The pipeline on a PDF of two pages *)
(* ------------------------------------------------------------------ *)

Module IngestExamples.

Import Ingest.

Lemma ingest_pdf_continues_after_failed_page_witness :
  In (Printed (LogFailed 1 (lit "vision timeout")))
     (trace (snd (ingest_pdf Demo.ingest_services (lit "report.pdf")
                    (lit "report 2024") (lit "FY24") Demo.ingest_start))) /\
  In (Printed (LogStored 2 (lit "report 2024")))
     (trace (snd (ingest_pdf Demo.ingest_services (lit "report.pdf")
                    (lit "report 2024") (lit "FY24") Demo.ingest_start))).
Proof.
  split.
  - pose (s1 := snd (call (mkdtemp Demo.ingest_services)
                        (logged (LogStarting (lit "report.pdf")) Demo.ingest_start))).
    pose (s2 := snd (pdf_to_images Demo.ingest_services (lit "report.pdf")
                       (lit "/tmp/ingest") s1)).
    pose (s4 := snd (process_page Demo.ingest_services (lit "report 2024")
                       (lit "FY24") 1 (lit "/tmp/ingest/page_1.png")
                       (logged (LogProcessing 1) s2))).
    refine (proj2 (proj2
      (@ingest_pdf_continues_after_failed_page nat nat
         Demo.ingest_services (lit "report.pdf") (lit "report 2024")
         (lit "FY24") [] [(2%Z, lit "/tmp/ingest/page_2.png")]
         1%Z (lit "/tmp/ingest/page_1.png") Demo.ingest_start
         s1 s2 s2 s4 (lit "/tmp/ingest") (lit "vision timeout") _ _ _ _)));
      vm_compute; reflexivity.
  - vm_compute. tauto.
Defined.

Lemma upload_page_ids_deterministic_witness :
  map (@id nat) (Demo.batch (lit "FY24") (lit "| Revenue | 42 |") (lit "- Revenue: 42")) =
  map (@id nat) (Demo.batch (lit "FY25") (lit "| Revenue | 43 |") (lit "- Up by 1")) /\
  map (@id nat) (Demo.batch (lit "FY24") (lit "| Revenue | 42 |") (lit "- Revenue: 42")) =
  [ lit "report_2024_page_3_page_detail"; lit "report_2024_page_3_page_summary" ].
Proof.
  pose (run1 := upload_page Demo.ingest_services (lit "report 2024") 3 (lit "FY24")
                  (lit "| Revenue | 42 |") (lit "- Revenue: 42") default_section
                  Demo.ingest_start).
  pose (run2 := upload_page Demo.ingest_services (lit "report 2024") 3 (lit "FY25")
                  (lit "| Revenue | 43 |") (lit "- Up by 1") default_section
                  Demo.ingest_later).
  refine (@upload_page_ids_deterministic nat nat Demo.ingest_services
            (lit "report 2024") 3
            (lit "FY24") (lit "| Revenue | 42 |") (lit "- Revenue: 42") default_section
            Demo.ingest_start (snd run1) (Ok tt)
            (lit "FY25") (lit "| Revenue | 43 |") (lit "- Up by 1") default_section
            Demo.ingest_later (snd run2) (Ok tt)
            [UploadDocuments (Demo.batch (lit "FY24") (lit "| Revenue | 42 |")
                                (lit "- Revenue: 42"));
             Printed (LogStored 3 (lit "report 2024"))]
            [UploadDocuments (Demo.batch (lit "FY25") (lit "| Revenue | 43 |")
                                (lit "- Up by 1"));
             Printed (LogStored 3 (lit "report 2024"))]
            _ _ _ _ _ _ _ _);
    try (vm_compute; reflexivity); left; reflexivity.
Defined.

Lemma upload_page_uploads_detail_and_summary_witness :
  let s' := snd (upload_page Demo.ingest_services (lit "report 2024") 3 (lit "FY24")
                   (lit "| Revenue | 42 |") (lit "- Revenue: 42") default_section
                   Demo.ingest_start) in
  exists v1 w1 v2 w2 d1 d2,
    create_embedding Demo.ingest_services (lit "| Revenue | 42 |")
      (world Demo.ingest_start) = (Ok v1, w1) /\
    create_embedding Demo.ingest_services (lit "- Revenue: 42") w1 = (Ok v2, w2) /\
    upload_documents Demo.ingest_services [d1; d2] w2 = (Ok tt, world s') /\
    added Demo.ingest_start s'
      [UploadDocuments [d1; d2]; Printed (LogStored 3 (lit "report 2024"))] /\
    (content_type d1 = page_detail /\ content d1 = lit "| Revenue | 42 |" /\
     contentVector d1 = v1) /\
    (content_type d2 = page_summary /\ content d2 = lit "- Revenue: 42" /\
     contentVector d2 = v2).
Proof.
  intros s'.
  apply (@upload_page_uploads_detail_and_summary nat nat Demo.ingest_services
           (lit "report 2024") 3 (lit "FY24") (lit "| Revenue | 42 |")
           (lit "- Revenue: 42") default_section Demo.ingest_start s').
  vm_compute. reflexivity.
Defined.

Lemma upload_page_keeps_original_name_witness :
  let d := Ingest.page_document (lit "report 2024") 3 (lit "FY24") default_section
             (lit "| Revenue | 42 |") page_detail 16%nat in
  doc d = lit "report 2024" /\ id d = lit "report_2024_page_3_page_detail".
Proof.
  intros d.
  pose (run := upload_page Demo.ingest_services (lit "report 2024") 3 (lit "FY24")
                 (lit "| Revenue | 42 |") (lit "- Revenue: 42") default_section
                 Demo.ingest_start).
  refine (@upload_page_keeps_original_name nat nat Demo.ingest_services
            (lit "report 2024") 3 (lit "FY24") (lit "| Revenue | 42 |")
            (lit "- Revenue: 42") default_section Demo.ingest_start (snd run)
            (Ok tt)
            [UploadDocuments (Demo.batch (lit "FY24") (lit "| Revenue | 42 |")
                                (lit "- Revenue: 42"));
             Printed (LogStored 3 (lit "report 2024"))]
            (Demo.batch (lit "FY24") (lit "| Revenue | 42 |") (lit "- Revenue: 42"))
            d _ _ _ _);
    try (vm_compute; reflexivity); left; reflexivity.
Defined.

End IngestExamples.

(* ------------------------------------------------------------------ *)
(** * Properties of retrieval *)
(* ------------------------------------------------------------------ *)

Section AppFacts.

Import App.

Context {World Vec : Type} (svc : Services World Vec).

Local Notation "'St'" := (state World).

(** The loop appends one dict per result, in the order of the results. *)
Lemma retrieve_loop_order (results : list hit) (docs out : list context_doc) :
  retrieve_loop results docs = Ok out ->
  exists new, out = docs ++ new /\ Forall2 built_from results new.
Proof.
  revert docs. induction results as [|r rest IH]; intros docs H;
    cbn [retrieve_loop] in H.
  - injection H as <-. exists []. rewrite app_nil_r. split; constructor.
  - destruct (getitem r (lit "content")) as [c|e] eqn:Ec; [|discriminate H].
    destruct (getitem r (lit "doc")) as [d|e] eqn:Ed; [|discriminate H].
    destruct (getitem r (lit "page")) as [p|e] eqn:Ep; [|discriminate H].
    destruct (getitem r (lit "content_type")) as [t|e] eqn:Et; [|discriminate H].
    destruct (IH _ H) as (new & -> & Hnew).
    eexists (_ :: new). rewrite <- app_assoc. split; [reflexivity|].
    constructor; [|exact Hnew].
    repeat split; assumption.
Qed.

(** C6, as the code has it: [retrieve_documents] returns one document
    per result the search service yields, in the order the service yields
    them. It asks the service for [k = top_k] and cuts nothing itself: the
    list has at most [top_k] documents whenever the service yields at most
    [top_k] results. *)
Theorem retrieve_documents_keeps_service_order (query : str) (top_k : Z)
    (s s' : St) (docs : list context_doc) :
  retrieve_documents svc query top_k s = (Ok docs, s') ->
  exists vector w1 results,
    embeddings_create svc query (world s) = (Ok vector, w1) /\
    search svc vector top_k w1 = (Ok results, world s') /\
    Forall2 built_from results docs /\
    List.length docs = List.length results /\
    ((Z.of_nat (List.length results) <= top_k)%Z ->
     (Z.of_nat (List.length docs) <= top_k)%Z).
Proof.
  unfold retrieve_documents, embed_query, bind, call. intros H.
  destruct (embeddings_create svc query (world s)) as [[vector|e] w1] eqn:E1;
    [|discriminate H].
  cbn [world] in H.
  destruct (search svc vector top_k w1) as [[results|e] w2] eqn:E2;
    [|discriminate H].
  injection H as H <-. cbn [world].
  destruct (retrieve_loop_order _ _ H) as (new & -> & Hnew).
  exists vector, w1, results. cbn [app].
  assert (Hlen : List.length new = List.length results).
  { symmetry. eapply Forall2_length. exact Hnew. }
  repeat split; try assumption. rewrite Hlen. trivial.
Qed.

(** ** The chat session *)

(** What one chat turn does to a session that has a history [h]: the
    user message is appended first, the assistant message only when
    retrieval and generation both return. *)
Lemma chat_turn_history (text : str) (s s' : St) (r : result unit)
    (h : list message) :
  messages (session s) = Some h ->
  chat_turn svc text s = (r, s') ->
  suggested_input (session s') = suggested_input (session s) /\
  (exists suffix, messages (session s') = Some (h ++ suffix)) /\
  (r = Ok tt ->
   exists answer,
     messages (session s') =
     Some (h ++ [user_message text; assistant_message answer])).
Proof.
  intros Hm. unfold chat_turn, retrieve_documents, embed_query.
  unfold bind, append_message, get_session, put_session, call, bind.
  rewrite Hm. cbn [world session messages suggested_input].
  destruct (embeddings_create svc text (world s)) as [[vector|e] w1];
    cbn [world session messages suggested_input].
  2:{ intros H. injection H as <- <-. cbn.
      split; [reflexivity|]. split; [eexists; reflexivity | discriminate]. }
  destruct (search svc vector default_top_k w1) as [[results|e] w2];
    cbn [world session messages suggested_input].
  2:{ intros H. injection H as <- <-. cbn.
      split; [reflexivity|]. split; [eexists; reflexivity | discriminate]. }
  destruct (retrieve_loop results []) as [contexts|e].
  2:{ intros H. injection H as <- <-. cbn.
      split; [reflexivity|]. split; [eexists; reflexivity | discriminate]. }
  destruct (generate_answer_stream svc text contexts w2) as [[stream|e] w3];
    cbn [world session messages suggested_input].
  2:{ intros H. injection H as <- <-. cbn.
      split; [reflexivity|]. split; [eexists; reflexivity | discriminate]. }
  intros H. injection H as <- <-. cbn.
  rewrite <- app_assoc. cbn [app].
  split; [reflexivity|]. split; eexists; reflexivity.
Qed.

(** *** When the clients can be built *)

Section Configured.

Hypothesis Hinit : init_clients_error svc = None.

(** One run of the script when no suggested question is pending: a click
    on Clear Chat empties the history and asks for a rerun; any other
    interaction runs a chat turn if it asks a question and nothing
    otherwise. *)
Lemma script_run (ev : interaction) (s : St) :
  suggested_input (session s) = None ->
  script svc ev s =
  match ev with
  | ClickClearChat =>
      (Raise RerunException,
       {| session := {| messages := Some []; suggested_input := None |};
          world := world s |})
  | _ =>
      match asked ev with
      | Some question => chat_turn svc question (with_messages s)
      | None => (Ok tt, with_messages s)
      end
  end.
Proof.
  unfold script, init_clients. rewrite Hinit.
  destruct s as [[m si] w]. cbn [session suggested_input]. intros ->.
  unfold with_messages, history. cbn [session world messages].
  destruct ev as [|i| |text].
  - destruct m; reflexivity.
  - destruct i as [|[|[|i]]]; destruct m; reflexivity.
  - destruct m; reflexivity.
  - destruct text as [|c text]; destruct m; reflexivity.
Qed.

(** The history after one run of the script, by the interaction. *)
Lemma script_history (ev : interaction) (s s1 : St) (r : result unit) :
  suggested_input (session s) = None ->
  script svc ev s = (r, s1) ->
  suggested_input (session s1) = None /\
  (ev = ClickClearChat -> r = Raise RerunException /\ history s1 = []) /\
  (ev <> ClickClearChat ->
   exists suffix,
     history s1 = history s ++ suffix /\
     (asked ev = None -> suffix = []) /\
     (forall question, asked ev = Some question -> r = Ok tt ->
        exists answer,
          suffix = [user_message question; assistant_message answer])).
Proof.
  intros Hnone Hrun. rewrite (script_run ev s Hnone) in Hrun.
  assert (Hturn : forall question,
            chat_turn svc question (with_messages s) = (r, s1) ->
            suggested_input (session s1) = None /\
            exists suffix,
              history s1 = history s ++ suffix /\
              (r = Ok tt ->
               exists answer,
                 suffix = [user_message question; assistant_message answer])).
  { intros question Hq.
    destruct (chat_turn_history question (with_messages s) eq_refl Hq)
      as (Hsi & (suffix & Hsuf) & Hok).
    split; [exact Hsi|]. exists suffix. unfold history at 1. rewrite Hsuf.
    split; [reflexivity|]. intros Hr. destruct (Hok Hr) as (answer & Hans).
    exists answer. rewrite Hsuf in Hans. injection Hans as Hans.
    apply app_inv_head in Hans. exact Hans. }
  assert (Hidle : (Ok tt, with_messages s) = (r, s1) ->
            suggested_input (session s1) = None /\
            history s1 = history s ++ []).
  { intros H. injection H as <- <-. rewrite app_nil_r. split; reflexivity. }
  destruct ev as [|i| |text].
  - destruct (Hidle Hrun) as [Hsi Hh]. split; [exact Hsi|].
    split; [discriminate|]. intros _. exists [].
    split; [exact Hh|]. split; [reflexivity | discriminate].
  - destruct (asked (ClickSuggested i)) as [question|] eqn:Ea.
    + destruct (Hturn question Hrun) as (Hsi & suffix & Hh & Hok).
      split; [exact Hsi|]. split; [discriminate|]. intros _. exists suffix.
      split; [exact Hh|]. split; [discriminate|].
      intros q Hq. injection Hq as <-. exact Hok.
    + destruct (Hidle Hrun) as [Hsi Hh]. split; [exact Hsi|].
      split; [discriminate|]. intros _. exists [].
      split; [exact Hh|]. split; [reflexivity | discriminate].
  - injection Hrun as <- <-. split; [reflexivity|].
    split; [split; reflexivity|]. intros H. contradiction H. reflexivity.
  - destruct (asked (SubmitChatInput text)) as [question|] eqn:Ea.
    + destruct (Hturn question Hrun) as (Hsi & suffix & Hh & Hok).
      split; [exact Hsi|]. split; [discriminate|]. intros _. exists suffix.
      split; [exact Hh|]. split; [discriminate|].
      intros q Hq. injection Hq as <-. exact Hok.
    + destruct (Hidle Hrun) as [Hsi Hh]. split; [exact Hsi|].
      split; [discriminate|]. intros _. exists [].
      split; [exact Hh|]. split; [reflexivity | discriminate].
Qed.

(** Two runs are enough for the runner: the rerun that follows
    [st.rerun()] has no interaction and no pending question, so it ends.
    The interaction leaves the history its first run left. *)
Lemma handle_interaction_runs (ev : interaction) (s : St) :
  suggested_input (session s) = None ->
  exists r s',
    handle_interaction svc ev s = Some (r, s') /\
    suggested_input (session s') = None /\
    history s' = history (snd (script svc ev s)) /\
    (fst (script svc ev s) = Ok tt -> r = Ok tt).
Proof.
  intros Hnone. unfold handle_interaction. cbn [run].
  destruct (script svc ev s) as [r s1] eqn:Hrun.
  destruct (script_history ev s Hnone Hrun) as (Hsi & _).
  assert (Hother : r <> Raise RerunException ->
            exists r' s',
              match r with
              | Raise RerunException =>
                  match script svc NoInteraction s1 with
                  | (Raise RerunException, _) => None
                  | other => Some other
                  end
              | _ => Some (r, s1)
              end = Some (r', s') /\
              suggested_input (session s') = None /\
              history s' = history (snd (r, s1)) /\
              (fst (r, s1) = Ok tt -> r' = Ok tt)).
  { intros Hr. exists r, s1.
    destruct r as [[]|[msg|msg|]]; try (contradiction Hr; reflexivity);
      repeat split; trivial. }
  destruct r as [[]|[msg|msg|]]; try (apply Hother; discriminate).
  rewrite (script_run NoInteraction s1 Hsi). cbn [asked].
  exists (Ok tt), (with_messages s1). repeat split; trivial.
Qed.

(** No suggested question is pending between two interactions. *)
Lemma reachable_no_pending (s : St) :
  reachable svc s -> suggested_input (session s) = None.
Proof.
  induction 1 as [w | s s' ev r _ IH Hstep | s w _ IH].
  - reflexivity.
  - destruct (handle_interaction_runs ev s IH) as (r' & s'' & Hrun & Hsi & _).
    rewrite Hrun in Hstep. injection Hstep as _ <-. exact Hsi.
  - exact IH.
Qed.

End Configured.

(** *** When the clients cannot be built *)

Section Unconfigured.

Variable msg : str.

Hypothesis Hinit : init_clients_error svc = Some msg.

(** Every run of the script stops at [init_clients()], or before it at
    [st.rerun()]: it calls no service and stores no message. *)
Lemma script_unconfigured (ev : interaction) (s : St) :
  exists s1,
    script svc ev s =
      (match ev with
       | ClickClearChat => Raise RerunException
       | _ => Raise (Exception msg)
       end, s1) /\
    world s1 = world s /\
    history s1 = match ev with ClickClearChat => [] | _ => history s end.
Proof.
  unfold script, init_clients. rewrite Hinit.
  destruct s as [[m si] w].
  destruct ev as [|i| |text]; [| destruct i as [|[|[|i]]] | |];
    eexists; (split; [reflexivity|]); split; reflexivity.
Qed.

Lemma handle_interaction_unconfigured (ev : interaction) (s : St) :
  exists s',
    handle_interaction svc ev s = Some (Raise (Exception msg), s') /\
    world s' = world s /\
    history s' = match ev with ClickClearChat => [] | _ => history s end.
Proof.
  unfold handle_interaction. cbn [run].
  destruct (script_unconfigured ev s) as (s1 & Hs & Hw & Hh). rewrite Hs.
  destruct ev as [|i| |text];
    try (exists s1; split; [reflexivity | split; assumption]).
  destruct (script_unconfigured NoInteraction s1) as (s2 & Hs2 & Hw2 & Hh2).
  rewrite Hs2. exists s2. split; [reflexivity|].
  split; [rewrite Hw2; exact Hw | rewrite Hh2; exact Hh].
Qed.

(** No message is ever stored. *)
Lemma reachable_unconfigured (s : St) :
  reachable svc s -> history s = [].
Proof.
  induction 1 as [w | s s' ev r _ IH Hstep | s w _ IH].
  - reflexivity.
  - destruct (handle_interaction_unconfigured ev s) as (s'' & Hrun & _ & Hh).
    rewrite Hrun in Hstep. injection Hstep as _ <-. rewrite Hh.
    destruct ev; try exact IH. reflexivity.
  - exact IH.
Qed.

End Unconfigured.

(** C8: the chat history is append-only across turns and empty after
    Clear Chat. From any state a session can be in, an interaction is
    handled (the runner ends) and:
    - a click on Clear Chat leaves the empty history;
    - any other interaction leaves the earlier messages as they were, with
      new ones after them at most;
    - when the interaction asks a question and the script runs to its end,
      the new messages are the user message followed by the assistant
      message; when it asks nothing, the history is the same;
    - a history that was not empty is empty afterwards only if the
      interaction was the click on Clear Chat. *)
Theorem chat_history_append_only (s : St) (ev : interaction) :
  reachable svc s ->
  exists r s',
    handle_interaction svc ev s = Some (r, s') /\
    (ev = ClickClearChat -> history s' = []) /\
    (ev <> ClickClearChat -> exists suffix, history s' = history s ++ suffix) /\
    (forall question,
       asked ev = Some question -> fst (script svc ev s) = Ok tt ->
       r = Ok tt /\
       exists answer,
         history s' =
         history s ++ [user_message question; assistant_message answer]) /\
    (ev <> ClickClearChat -> asked ev = None -> history s' = history s) /\
    (history s <> [] -> history s' = [] -> ev = ClickClearChat).
Proof.
  intros Hreach.
  destruct (init_clients_error svc) as [msg|] eqn:Hinit.
  { (* the clients cannot be built: nothing is ever stored *)
    destruct (handle_interaction_unconfigured Hinit ev s) as (s' & Hrun & _ & Hh).
    destruct (script_unconfigured Hinit ev s) as (s1 & Hs & _).
    pose proof (reachable_unconfigured Hinit Hreach) as Hempty.
    exists (Raise (Exception msg)), s'. split; [exact Hrun|].
    split; [intros ->; exact Hh|].
    split.
    { intros Hev. exists []. rewrite Hh, app_nil_r.
      destruct ev; try reflexivity. contradiction Hev. reflexivity. }
    split.
    { intros question _ Hok. rewrite Hs in Hok. cbn [fst] in Hok.
      destruct ev; discriminate Hok. }
    split.
    { intros Hev _. rewrite Hh.
      destruct ev; try reflexivity. contradiction Hev. reflexivity. }
    intros Hne _. contradiction. }
  pose proof (reachable_no_pending Hinit Hreach) as Hnone.
  destruct (handle_interaction_runs Hinit ev s Hnone) as (r & s' & Hrun & _ & Hh & Hr).
  exists r, s'. split; [exact Hrun|].
  destruct (script svc ev s) as [r1 s1] eqn:Hscript. cbn [fst snd] in Hh, Hr.
  destruct (script_history Hinit ev s Hnone Hscript) as (_ & Hclear & Hkeep).
  rewrite Hh.
  assert (Hdec : ev = ClickClearChat \/ ev <> ClickClearChat).
  { destruct ev; (left; reflexivity) || (right; discriminate). }
  repeat split.
  - intros Hev. apply Hclear. exact Hev.
  - intros Hev. destruct (Hkeep Hev) as (suffix & Hs & _). exists suffix. exact Hs.
  - apply Hr. assumption.
  - destruct Hdec as [->|Hev]; [discriminate|].
    destruct (Hkeep Hev) as (suffix & Hs & _ & Hturn).
    destruct (Hturn question) as (answer & ->); try assumption.
    exists answer. exact Hs.
  - intros Hev Ha. destruct (Hkeep Hev) as (suffix & Hs & Hnil & _).
    rewrite Hs, (Hnil Ha), app_nil_r. reflexivity.
  - intros Hne Hempty. destruct Hdec as [Hev|Hev]; [exact Hev|].
    destruct (Hkeep Hev) as (suffix & Hs & _).
    rewrite Hs in Hempty. apply app_eq_nil in Hempty.
    destruct Hempty as [Hempty _]. contradiction.
Qed.

End AppFacts.

(* ------------------------------------------------------------------ *)
(** * The chat application on a small index *)
(* ------------------------------------------------------------------ *)

Module AppExamples.

Import App.

(** The search service of [Demo] yields two results when one is asked
    for, and [retrieve_documents] returns both: the bound of C6 on the
    length does not hold for every result sequence. *)
Lemma retrieve_documents_exceeds_top_k :
  ~ (forall docs s',
       retrieve_documents Demo.app_services (lit "revenue") 1 Demo.app_start =
       (Ok docs, s') ->
       (Z.of_nat (List.length docs) <= 1)%Z).
Proof.
  intros H.
  destruct (retrieve_documents Demo.app_services (lit "revenue") 1 Demo.app_start)
    as [[docs|e] s'] eqn:E; vm_compute in E; [|discriminate E].
  injection E as <- <-.
  specialize (H _ _ eq_refl). cbn in H. lia.
Qed.

Lemma retrieve_documents_keeps_service_order_witness :
  let out := retrieve_documents Demo.app_services (lit "revenue") 5 Demo.app_start in
  exists docs,
    fst out = Ok docs /\
    Forall2 built_from [Demo.hit1; Demo.hit2] docs /\
    (Z.of_nat (List.length docs) <= 5)%Z.
Proof.
  intros out.
  destruct out as [[docs|e] s'] eqn:E; subst out; [|vm_compute in E; discriminate E].
  exists docs. split; [reflexivity|].
  destruct (@retrieve_documents_keeps_service_order nat nat Demo.app_services
              (lit "revenue") 5 Demo.app_start s' docs E)
    as (vector & w1 & results & E1 & E2 & Hall & Hlen & Hk).
  vm_compute in E1. injection E1 as <- <-.
  vm_compute in E2. injection E2 as <- _.
  split; [exact Hall|]. apply Hk. cbn. lia.
Defined.

(** After one question the history holds the question and the streamed
    answer. *)
Example history_after_turn :
  history Demo.app_after_turn =
  [ user_message (lit "What is the revenue?");
    assistant_message (lit "Revenue is 42") ].
Proof. vm_compute. reflexivity. Qed.

Lemma app_after_turn_reachable : reachable Demo.app_services Demo.app_after_turn.
Proof.
  apply (@reach_interaction nat nat Demo.app_services Demo.app_start
           Demo.app_after_turn
           (SubmitChatInput (lit "What is the revenue?")) (Ok tt)).
  - apply reach_start.
  - vm_compute. reflexivity.
Defined.

Lemma chat_history_append_only_witness :
  (exists r s',
     handle_interaction Demo.app_services ClickClearChat Demo.app_after_turn =
       Some (r, s') /\
     history s' = []) /\
  (exists r s' answer,
     handle_interaction Demo.app_services (ClickSuggested 1) Demo.app_after_turn =
       Some (r, s') /\
     history s' =
     history Demo.app_after_turn ++
     [ user_message (lit "Compare financial data between 2023-24");
       assistant_message answer ]).
Proof.
  split.
  - destruct (@chat_history_append_only nat nat Demo.app_services
                Demo.app_after_turn ClickClearChat app_after_turn_reachable)
      as (r & s' & Hrun & Hclear & _).
    exists r, s'. split; [exact Hrun | apply Hclear; reflexivity].
  - destruct (@chat_history_append_only nat nat Demo.app_services
                Demo.app_after_turn (ClickSuggested 1) app_after_turn_reachable)
      as (r & s' & Hrun & _ & _ & Hturn & _).
    destruct (Hturn (lit "Compare financial data between 2023-24"))
      as (_ & answer & Hh); [reflexivity | vm_compute; reflexivity |].
    exists r, s', answer. split; [exact Hrun | exact Hh].
Defined.

End AppExamples.

(* ------------------------------------------------------------------ *)
(** * More on document keys *)
(* ------------------------------------------------------------------ *)

Lemma safe_id_only_allowed_chars_aux (text : str) :
  Forall (fun c => allowed_key_char c = true) (safe_id text).
Proof.
  induction text as [|c text IH]; [constructor|].
  rewrite safe_id_cons. constructor; [|exact IH].
  destruct (allowed_key_char c) eqn:E; [exact E | reflexivity].
Qed.

Lemma safe_id_app (a b : str) : safe_id (a ++ b) = safe_id a ++ safe_id b.
Proof.
  induction a as [|c a IH]; [reflexivity|].
  rewrite <- app_comm_cons, !safe_id_cons, IH. reflexivity.
Qed.

Lemma digits_allowed (d : Decimal.uint) :
  Forall (fun c => allowed_key_char c = true) (lit (NilEmpty.string_of_uint d)).
Proof.
  induction d; cbn [NilEmpty.string_of_uint]; try rewrite lit_String;
    constructor; (reflexivity || assumption).
Qed.

(** The decimal form of an int holds digits and at most a minus sign:
    characters a key may hold. *)
Lemma str_of_int_allowed (n : Z) :
  Forall (fun c => allowed_key_char c = true) (str_of_int n).
Proof.
  assert (Hu : forall d,
            Forall (fun c => allowed_key_char c = true)
                   (lit (NilZero.string_of_uint d))).
  { intros d. destruct d; try apply digits_allowed.
    repeat constructor. }
  unfold str_of_int. destruct (Z.to_int n) as [d|d]; cbn [NilZero.string_of_int].
  - apply Hu.
  - rewrite lit_String. constructor; [reflexivity | apply Hu].
Qed.

(** X1: [safe_id] keeps the length of its input: every character is
    replaced by exactly one character. *)
Theorem safe_id_length (text : str) :
  List.length (safe_id text) = List.length text.
Proof.
  induction text as [|c text IH]; [reflexivity|].
  rewrite safe_id_cons. cbn [List.length]. rewrite IH. reflexivity.
Qed.

(** X2: [safe_id] returns its input unchanged exactly when the input holds
    allowed characters only: any disallowed character changes the name. *)
Theorem safe_id_unchanged_iff (text : str) :
  safe_id text = text <-> Forall (fun c => allowed_key_char c = true) text.
Proof.
  split.
  - intros H. rewrite <- H. apply safe_id_only_allowed_chars_aux.
  - apply safe_id_fixes_allowed.
Qed.

(** X3: the id of a record is itself a valid key: for the two content
    types, and any document name and page number (negative ones too), it
    holds letters, digits, underscores, hyphens and equals signs only. *)
Theorem record_id_only_allowed_chars (doc_name : str) (page_num : Z)
    (content_type : str) :
  In content_type [page_detail; page_summary] ->
  Forall (fun c => allowed_key_char c = true)
         (record_id doc_name page_num content_type).
Proof.
  intros Ht. unfold record_id, format_id.
  repeat (apply Forall_app; split).
  - apply safe_id_only_allowed_chars_aux.
  - vm_compute. repeat constructor.
  - apply str_of_int_allowed.
  - vm_compute. repeat constructor.
  - destruct Ht as [<-|[<-|[]]]; vm_compute; repeat constructor.
Qed.

Lemma record_id_only_allowed_chars_witness :
  Forall (fun c => allowed_key_char c = true)
         (record_id (lit "Q3 report (final).pdf") (-7) page_summary).
Proof.
  apply record_id_only_allowed_chars. right. left. reflexivity.
Defined.

(** X4: document names that [safe_id] cannot tell apart share all their
    record ids. If two names have the same length and differ only at
    places where each has a disallowed character or an underscore, then
    for every page and content type their records get the same id: the
    records of the one replace those of the other in the index. *)
Theorem colliding_names_share_record_ids (a b : str) (page_num : Z)
    (content_type : str) :
  Forall2 (fun x y =>
             x = y \/
             ((allowed_key_char x = false \/ x = 95%N) /\
              (allowed_key_char y = false \/ y = 95%N))) a b ->
  record_id a page_num content_type = record_id b page_num content_type.
Proof.
  intros H. apply safe_id_collision_iff in H.
  unfold record_id. rewrite H. reflexivity.
Qed.

Lemma colliding_names_share_record_ids_witness :
  record_id (lit "report (v2).pdf") 4 page_detail =
  record_id (lit "report_[v2]_pdf") 4 page_detail.
Proof.
  apply colliding_names_share_record_ids.
  repeat (constructor; [vm_compute; intuition congruence|]).
  constructor.
Defined.

(* ------------------------------------------------------------------ *)
(** * Rendering the pages *)
(* ------------------------------------------------------------------ *)

Section RenderFacts.

Import Ingest Observe.

Context {World Vec : Type} (svc : Services World Vec).

Local Notation "'St'" := (state World Vec).

(** The rendering loop prints and uploads nothing, and when it returns it
    has appended one entry per index, in order. *)
Lemma pdf_to_images_loop_result (pdf_path output_dir : str) (indices : list nat)
    (image_paths : list (Z * str)) (s s' : St) (r : result (list (Z * str))) :
  pdf_to_images_loop svc pdf_path output_dir indices image_paths s = (r, s') ->
  trace s' = trace s /\
  (forall images, r = Ok images ->
     images = image_paths ++ map (page_image output_dir) indices).
Proof.
  revert image_paths s. induction indices as [|i indices IH]; intros acc s H.
  - cbn in H. injection H as <- <-. split; [reflexivity|].
    intros images [= <-]. rewrite app_nil_r. reflexivity.
  - cbn [pdf_to_images_loop] in H. unfold bind at 1, call at 1 in H.
    destruct (save_pixmap svc pdf_path i _ (world s)) as [[[]|e] w1].
    + apply IH in H. cbn [trace] in H. destruct H as [Ht Hi].
      split; [exact Ht|]. intros images Hr. rewrite (Hi images Hr).
      rewrite <- app_assoc. reflexivity.
    + injection H as <- <-. split; [reflexivity | discriminate].
Qed.

Lemma NoDup_map_injective {A B} (f : A -> B) (l : list A) :
  (forall x y, f x = f y -> x = y) -> NoDup l -> NoDup (map f l).
Proof.
  intros Hinj. induction 1 as [|x l Hx _ IH]; cbn; constructor; [|exact IH].
  intros Hin. apply in_map_iff in Hin. destruct Hin as (y & Hy & Hin).
  apply Hinj in Hy. subst y. exact (Hx Hin).
Qed.

Lemma os_path_join_inj (a b1 b2 : str) :
  os_path_join a b1 = os_path_join a b2 -> b1 = b2.
Proof.
  unfold os_path_join. destruct (rev a) as [|last _]; [trivial|].
  destruct (last =? chr "/")%N; intros H.
  - apply app_inv_head in H. exact H.
  - apply app_inv_head in H. apply app_inv_head in H. exact H.
Qed.

Lemma page_image_path_inj (output_dir : str) (i j : nat) :
  snd (page_image output_dir i) = snd (page_image output_dir j) -> i = j.
Proof.
  unfold page_image. cbn [snd]. intros H.
  apply os_path_join_inj in H. apply app_inv_head in H.
  apply app_inv_tail in H. apply str_of_int_inj in H. lia.
Qed.

(** What [pdf_to_images] returns. *)
Lemma pdf_to_images_returns (pdf_path output_dir : str) (s s' : St)
    (images : list (Z * str)) :
  pdf_to_images svc pdf_path output_dir s = (Ok images, s') ->
  exists n w,
    fitz_open svc pdf_path (world s) = (Ok n, w) /\
    images = map (page_image output_dir) (seq 0 n) /\
    map fst images = map Z.of_nat (seq 1 n) /\
    trace s' = trace s.
Proof.
  unfold pdf_to_images, bind. unfold call at 1.
  destruct (fitz_open svc pdf_path (world s)) as [[n|e] w] eqn:E;
    [|discriminate].
  intros H. apply pdf_to_images_loop_result in H. cbn [trace] in H.
  destruct H as [Ht Hi]. specialize (Hi images eq_refl). cbn [app] in Hi.
  exists n, w. split; [reflexivity|]. split; [exact Hi|]. split; [|exact Ht].
  rewrite Hi, map_map. cbn [page_image fst].
  rewrite <- seq_shift, map_map. apply map_ext. intros i. lia.
Qed.

(** The entries are all different. *)
Lemma pdf_to_images_entries_differ (pdf_path output_dir : str) (s s' : St)
    (images : list (Z * str)) :
  pdf_to_images svc pdf_path output_dir s = (Ok images, s') ->
  Forall (fun p => (0 < fst p)%Z) images /\
  NoDup (map fst images) /\
  NoDup (map snd images).
Proof.
  intros H. apply pdf_to_images_returns in H.
  destruct H as (n & w & _ & -> & _ & _).
  split; [|split].
  - apply Forall_forall. intros p Hp. apply in_map_iff in Hp.
    destruct Hp as (i & <- & _). cbn. lia.
  - rewrite map_map. apply NoDup_map_injective; [|apply seq_NoDup].
    intros i j Hij. cbn in Hij. lia.
  - rewrite map_map. apply NoDup_map_injective; [|apply seq_NoDup].
    intros i j Hij. exact (page_image_path_inj _ _ _ Hij).
Qed.

(** X5: when [pdf_to_images] returns, it returns one entry per page of the
    document, in page order: page [i] (from 0) is numbered [i + 1] and its
    image is [page_<i+1>.png] in the output directory. The page numbers
    are 1, 2, ..., n. Rendering prints nothing and uploads nothing. *)
Theorem pdf_to_images_pages (pdf_path output_dir : str) (s s' : St)
    (images : list (Z * str)) :
  pdf_to_images svc pdf_path output_dir s = (Ok images, s') ->
  exists n w,
    fitz_open svc pdf_path (world s) = (Ok n, w) /\
    images = map (page_image output_dir) (seq 0 n) /\
    map fst images = map Z.of_nat (seq 1 n) /\
    trace s' = trace s.
Proof. exact (@pdf_to_images_returns pdf_path output_dir s s' images). Qed.

(** X6: the entries [pdf_to_images] returns have positive page numbers,
    no page number twice and no image path twice: two pages never share
    an image file. *)
Theorem pdf_to_images_distinct (pdf_path output_dir : str) (s s' : St)
    (images : list (Z * str)) :
  pdf_to_images svc pdf_path output_dir s = (Ok images, s') ->
  Forall (fun p => (0 < fst p)%Z) images /\
  NoDup (map fst images) /\
  NoDup (map snd images).
Proof. exact (@pdf_to_images_entries_differ pdf_path output_dir s s' images). Qed.

(** X7: a failure of [pdf_to_images] is not caught. When opening the PDF
    or rendering any page raises, [ingest_pdf] ends by a raise, having
    printed the starting line only: no page is processed, nothing is
    uploaded, no completion line appears. What it raises is that
    exception when the temporary directory is then removed, and the
    exception of the removal when the removal fails. *)
Theorem ingest_pdf_aborts_when_rendering_fails
    (pdf_path doc_name year tmpdir : str) (s0 s1 s2 : St) (e : exn)
    (removal : result unit) (w3 : World) :
  call (mkdtemp svc) (logged (LogStarting pdf_path) s0) = (Ok tmpdir, s1) ->
  pdf_to_images svc pdf_path tmpdir s1 = (Raise e, s2) ->
  cleanup svc tmpdir (world s2) = (removal, w3) ->
  ingest_pdf svc pdf_path doc_name year s0 =
  (match removal with
   | Ok _ => Raise e
   | Raise e' => Raise e'
   end,
   {| world := w3; trace := trace s0 ++ [Printed (LogStarting pdf_path)] |}).
Proof.
  intros Htmp Hpages Hrm.
  assert (Ht2 : trace s2 = trace s0 ++ [Printed (LogStarting pdf_path)]).
  { assert (Ht1 : trace s1 = trace s0 ++ [Printed (LogStarting pdf_path)]).
    { unfold call in Htmp.
      destruct (mkdtemp svc (world (logged (LogStarting pdf_path) s0)))
        as [r w]. injection Htmp as _ <-. reflexivity. }
    rewrite <- Ht1. unfold pdf_to_images, bind in Hpages.
    unfold call at 1 in Hpages.
    destruct (fitz_open svc pdf_path (world s1)) as [[n|e'] w].
    - apply pdf_to_images_loop_result in Hpages. apply Hpages.
    - injection Hpages as _ <-. reflexivity. }
  unfold ingest_pdf. unfold bind at 1. unfold print at 1, emit at 1.
  fold (logged (LogStarting pdf_path) s0).
  unfold bind at 1, with_TemporaryDirectory. rewrite Htmp.
  unfold bind at 1. rewrite Hpages. unfold leave_TemporaryDirectory.
  rewrite Hrm, Ht2. destruct removal as [[]|e']; reflexivity.
Qed.

End RenderFacts.

(* ------------------------------------------------------------------ *)
(** * Accounting for the pages of an ingestion *)
(* ------------------------------------------------------------------ *)

Section LoopFacts.

Import Ingest Observe.

Context {World Vec : Type} (svc : Services World Vec).

Local Notation "'St'" := (state World Vec).

Lemma new_events_added (s s' : St) (evs : list (event Vec)) :
  trace s' = trace s ++ evs -> new_events s s' = evs.
Proof.
  intros H. unfold new_events. rewrite H.
  rewrite skipn_app, skipn_all, Nat.sub_diag. reflexivity.
Qed.

(** The events of [upload_page], by its outcome: nothing when an
    embedding fails; the batch alone when the upload raises; the batch and
    the "Stored" line when it returns. *)
Lemma upload_page_events (doc_name : str) (page_num : Z)
    (year detail_text summary_text section : str) (s s' : St) (r : result unit) :
  upload_page svc doc_name page_num year detail_text summary_text section s = (r, s') ->
  exists evs,
    trace s' = trace s ++ evs /\
    ((evs = [] /\ exists e, r = Raise e) \/
     exists v1 v2,
       let documents :=
         [ page_document doc_name page_num year section detail_text page_detail v1;
           page_document doc_name page_num year section summary_text page_summary v2 ] in
       (evs = [UploadDocuments documents] /\ exists e, r = Raise e) \/
       (evs = [UploadDocuments documents; Printed (LogStored page_num doc_name)] /\
        r = Ok tt)).
Proof.
  intros Hrun.
  destruct (upload_page_outcome svc doc_name page_num year detail_text summary_text
              section s)
    as [(e & w1 & _ & Hup) | [(v1 & w1 & e & w2 & _ & _ & Hup)
       | (v1 & w1 & v2 & w2 & r' & w3 & _ & _ & _ & Hup)]];
    rewrite Hup in Hrun.
  - injection Hrun as <- <-. exists []. cbn [trace]. rewrite app_nil_r.
    split; [reflexivity|]. left. split; [reflexivity | exists e; reflexivity].
  - injection Hrun as <- <-. exists []. cbn [trace]. rewrite app_nil_r.
    split; [reflexivity|]. left. split; [reflexivity | exists e; reflexivity].
  - destruct r' as [[]|e]; injection Hrun as <- <-; cbn [trace].
    + eexists. rewrite <- app_assoc. split; [reflexivity|].
      right. exists v1, v2. right. split; reflexivity.
    + eexists. split; [reflexivity|].
      right. exists v1, v2. left. split; [reflexivity | exists e; reflexivity].
Qed.

(** The events of the [try] body for one page: no "Processing" or
    "Failed" line; a "Stored" line exactly when it returns; at most one
    batch, made of the two records of this page. *)
Lemma process_page_events (doc_name year : str) (page_num : Z) (image_path : str)
    (s s' : St) (r : result unit) :
  process_page svc doc_name year page_num image_path s = (r, s') ->
  exists evs,
    trace s' = trace s ++ evs /\
    processing_pages (printed evs) = [] /\
    failed_pages (printed evs) = [] /\
    stored_pages (printed evs) =
      match r with Ok _ => [page_num] | Raise _ => [] end /\
    (uploaded evs = [] \/
     exists detail_text summary_text v1 v2,
       uploaded evs =
       [ page_document doc_name page_num year default_section
           detail_text page_detail v1;
         page_document doc_name page_num year default_section
           summary_text page_summary v2 ]) /\
    (r = Ok tt -> uploaded evs <> []).
Proof.
  rewrite process_page_steps.
  destruct (convert_to_jpeg svc image_path (world s)) as [[jpg_path|e] w1].
  2:{ intros H. injection H as <- <-. exists []. cbn. rewrite app_nil_r.
      repeat split; auto. discriminate. }
  destruct (os_path_getsize svc jpg_path w1) as [[size|e] w2].
  2:{ intros H. injection H as <- <-. exists []. cbn. rewrite app_nil_r.
      repeat split; auto. discriminate. }
  destruct (extract_page_detail svc jpg_path w2) as [[detail_text|e] w3].
  2:{ intros H. injection H as <- <-. exists [Printed (LogImageSize size)]. cbn.
      repeat split; auto. discriminate. }
  destruct (generate_page_summary svc detail_text w3) as [[summary_text|e] w4].
  2:{ intros H. injection H as <- <-. exists [Printed (LogImageSize size)]. cbn.
      repeat split; auto. discriminate. }
  intros H. apply upload_page_events in H. cbn [trace] in H.
  destruct H as (evs & Ht & Hshape).
  exists (Printed (LogImageSize size) :: evs).
  split; [rewrite Ht, <- app_assoc; reflexivity|].
  destruct Hshape as [[-> [e ->]] | (v1 & v2 & [[-> [e ->]] | [-> ->]])]; cbn.
  - repeat split; auto. discriminate.
  - repeat split; auto; [|discriminate].
    right. exists detail_text, summary_text, v1, v2. reflexivity.
  - repeat split; auto; [|discriminate].
    right. exists detail_text, summary_text, v1, v2. reflexivity.
Qed.

Lemma settled_when_none_failed (lines : list log_line) :
  failed_pages lines = [] -> settled_pages lines = stored_pages lines.
Proof.
  induction lines as [|line lines IH]; [reflexivity|].
  destruct line; cbn; intros H; try (apply IH; exact H);
    try discriminate H.
  f_equal. apply IH. exact H.
Qed.

Lemma settled_length (lines : list log_line) :
  List.length (settled_pages lines) =
  (List.length (stored_pages lines) + List.length (failed_pages lines))%nat.
Proof.
  unfold settled_pages, stored_pages, failed_pages.
  induction lines as [|line lines IH]; [reflexivity|].
  destruct line; cbn [flat_map app List.length]; lia.
Qed.

(** The two records of a page have different ids, and ids of different
    pages differ. *)
Lemma page_document_id_inj (doc_name year section : str) (p1 p2 : Z)
    (c1 c2 t1 t2 : str) (v1 v2 : Vec) :
  In t1 [page_detail; page_summary] ->
  In t2 [page_detail; page_summary] ->
  id (page_document doc_name p1 year section c1 t1 v1) =
  id (page_document doc_name p2 year section c2 t2 v2) ->
  p1 = p2 /\ t1 = t2.
Proof.
  intros H1 H2 H. cbn [id page_document] in H.
  edestruct format_id_inj as (_ & Hp & Ht); [exact H1 | exact H2 | exact H |].
  split; assumption.
Qed.

Lemma printed_app (a b : list (event Vec)) :
  printed (a ++ b) = printed a ++ printed b.
Proof. apply flat_map_app. Qed.

Lemma uploaded_app (a b : list (event Vec)) :
  uploaded (a ++ b) = uploaded a ++ uploaded b.
Proof. apply flat_map_app. Qed.

Lemma processing_pages_app (a b : list log_line) :
  processing_pages (a ++ b) = processing_pages a ++ processing_pages b.
Proof. apply flat_map_app. Qed.

Lemma settled_pages_app (a b : list log_line) :
  settled_pages (a ++ b) = settled_pages a ++ settled_pages b.
Proof. apply flat_map_app. Qed.

Lemma stored_pages_app (a b : list log_line) :
  stored_pages (a ++ b) = stored_pages a ++ stored_pages b.
Proof. apply flat_map_app. Qed.

(** What the page loop leaves in the trace. *)
Lemma ingest_loop_events (doc_name year : str) (page_images : list (Z * str))
    (s s' : St) (r : result unit) :
  ingest_loop svc doc_name year page_images s = (r, s') ->
  exists evs,
    trace s' = trace s ++ evs /\
    (r = Ok tt ->
     processing_pages (printed evs) = map fst page_images /\
     settled_pages (printed evs) = map fst page_images) /\
    Forall (fun d =>
              In (page d) (map fst page_images) /\
              In (content_type d) [page_detail; page_summary] /\
              d = page_document doc_name (page d) year default_section
                    (content d) (content_type d) (contentVector d))
           (uploaded evs) /\
    (NoDup (map fst page_images) -> NoDup (map (@id Vec) (uploaded evs))) /\
    incl (stored_pages (printed evs)) (map (@page Vec) (uploaded evs)).
Proof.
  revert s. induction page_images as [|[page_num image_path] rest IH]; intros s H.
  - cbn in H. injection H as <- <-. exists []. rewrite app_nil_r. cbn.
    repeat split; auto. constructor. intros x [].
  - rewrite ingest_loop_cons in H.
    destruct (process_page svc doc_name year page_num image_path
                (logged (LogProcessing page_num) s)) as [r1 s1] eqn:Hpage.
    apply process_page_events in Hpage. cbn [logged trace] in Hpage.
    destruct Hpage as (evs1 & Ht1 & Hproc1 & Hfail1 & Hstored1 & Hup1 & Hok1).
    pose proof (settled_when_none_failed _ Hfail1) as Hsettled1.
    rewrite <- app_assoc in Ht1. cbn [app] in Ht1.
    (* the records of this page *)
    assert (Hrec1 : Forall (fun d =>
                      page d = page_num /\
                      In (content_type d) [page_detail; page_summary] /\
                      d = page_document doc_name (page d) year default_section
                            (content d) (content_type d) (contentVector d))
                      (uploaded evs1)).
    { destruct Hup1 as [->|(dt & st & v1 & v2 & ->)]; [constructor|].
      constructor; [|constructor; [|constructor]]; cbn.
      - split; [reflexivity|]. split; [left; reflexivity | reflexivity].
      - split; [reflexivity|]. split; [right; left; reflexivity | reflexivity]. }
    assert (Hnd1 : NoDup (map (@id Vec) (uploaded evs1))).
    { destruct Hup1 as [->|(dt & st & v1 & v2 & ->)]; [constructor|].
      cbn [map]. constructor; [|constructor; [intros []|constructor]].
      intros [Heq|[]]. symmetry in Heq. apply page_document_id_inj in Heq.
      - destruct Heq as [_ Heq]. vm_compute in Heq. discriminate Heq.
      - left. reflexivity.
      - right. left. reflexivity. }
    assert (Hstored_in1 : incl (stored_pages (printed evs1))
                               (map (@page Vec) (uploaded evs1))).
    { rewrite Hstored1. destruct r1 as [[]|e]; [|intros x []].
      destruct Hup1 as [Hnil|(dt & st & v1 & v2 & ->)];
        [contradiction (Hok1 eq_refl Hnil)|].
      intros x [<-|[]]. left. reflexivity. }
    assert (Hweak : Forall (fun d =>
                      In (page d) (map fst ((page_num, image_path) :: rest)) /\
                      In (content_type d) [page_detail; page_summary] /\
                      d = page_document doc_name (page d) year default_section
                            (content d) (content_type d) (contentVector d))
                      (uploaded evs1)).
    { eapply Forall_impl; [|exact Hrec1]. intros d (Hp & Ht & Hd).
      split; [left; symmetry; exact Hp | split; assumption]. }
    (* the rest of the loop, from the state [s2] and after the lines [mid] *)
    assert (Hrest : forall s2 mid,
              trace s2 = trace s ++ Printed (LogProcessing page_num) :: evs1 ++ map Printed mid ->
              processing_pages mid = [] ->
              settled_pages (printed evs1 ++ mid) = [page_num] ->
              stored_pages mid = [] ->
              ingest_loop svc doc_name year rest s2 = (r, s') ->
              exists evs,
                trace s' = trace s ++ evs /\
                (r = Ok tt ->
                 processing_pages (printed evs) =
                   map fst ((page_num, image_path) :: rest) /\
                 settled_pages (printed evs) =
                   map fst ((page_num, image_path) :: rest)) /\
                Forall (fun d =>
                          In (page d) (map fst ((page_num, image_path) :: rest)) /\
                          In (content_type d) [page_detail; page_summary] /\
                          d = page_document doc_name (page d) year default_section
                                (content d) (content_type d) (contentVector d))
                       (uploaded evs) /\
                (NoDup (map fst ((page_num, image_path) :: rest)) ->
                 NoDup (map (@id Vec) (uploaded evs))) /\
                incl (stored_pages (printed evs)) (map (@page Vec) (uploaded evs))).
    { intros s2 mid Ht2 Hpm Hsm Hstm Hloop.
      destruct (IH _ Hloop) as (evs2 & Ht' & Hok2 & Hrec2 & Hnd2 & Hst2).
      assert (Hpmid : printed (map (@Printed Vec) mid) = mid).
      { clear. induction mid as [|l mid IHm]; [reflexivity|].
        cbn. f_equal. exact IHm. }
      assert (Humid : uploaded (map (@Printed Vec) mid) = []).
      { clear. induction mid as [|l mid IHm]; [reflexivity|]. exact IHm. }
      exists (Printed (LogProcessing page_num) :: evs1 ++ map Printed mid ++ evs2).
      split.
      { rewrite Ht', Ht2, <- !app_assoc. cbn [app]. rewrite <- app_assoc.
        reflexivity. }
      change (printed (Printed (LogProcessing page_num) ::
                       evs1 ++ map Printed mid ++ evs2))
        with (LogProcessing page_num ::
              printed (evs1 ++ map Printed mid ++ evs2)).
      change (uploaded (Printed (LogProcessing page_num) ::
                        evs1 ++ map Printed mid ++ evs2))
        with (uploaded (evs1 ++ map Printed mid ++ evs2)).
      rewrite !printed_app, !uploaded_app, Hpmid, Humid. cbn [app map fst].
      split; [|split; [|split]].
      - intros Hr. destruct (Hok2 Hr) as [Hp2 Hs2]. split.
        + change (processing_pages (LogProcessing page_num ::
                                    printed evs1 ++ mid ++ printed evs2))
            with (page_num ::
                  processing_pages (printed evs1 ++ mid ++ printed evs2)).
          rewrite !processing_pages_app, Hproc1, Hpm, Hp2. reflexivity.
        + change (settled_pages (LogProcessing page_num ::
                                 printed evs1 ++ mid ++ printed evs2))
            with (settled_pages (printed evs1 ++ mid ++ printed evs2)).
          rewrite app_assoc, settled_pages_app, Hsm, Hs2. reflexivity.
      - apply Forall_app. split; [exact Hweak|].
        eapply Forall_impl; [|exact Hrec2]. intros d (Hp & Ht & Hd).
        split; [right; exact Hp | split; assumption].
      - intros Hnd. inversion Hnd as [|x l Hnotin Hnd' E]. subst x l.
        rewrite map_app. apply NoDup_app; [exact Hnd1 | exact (Hnd2 Hnd') |].
        intros a Ha1 Ha2.
        apply in_map_iff in Ha1. destruct Ha1 as (d1 & <- & Hd1).
        apply in_map_iff in Ha2. destruct Ha2 as (d2 & Heq & Hd2).
        rewrite Forall_forall in Hrec1, Hrec2.
        destruct (Hrec1 _ Hd1) as (Hp1 & Hty1 & E1).
        destruct (Hrec2 _ Hd2) as (Hp2 & Hty2 & E2).
        rewrite E1, E2 in Heq. apply page_document_id_inj in Heq; try assumption.
        destruct Heq as [Heq _]. apply Hnotin. rewrite <- Hp1, <- Heq. exact Hp2.
      - change (stored_pages (LogProcessing page_num ::
                              printed evs1 ++ mid ++ printed evs2))
          with (stored_pages (printed evs1 ++ mid ++ printed evs2)).
        rewrite !stored_pages_app, Hstm, map_app. cbn [app].
        apply incl_app; [apply incl_appl; exact Hstored_in1
                        | apply incl_appr; exact Hst2]. }
    destruct r1 as [[]|[msg|msg|]].
    + apply (Hrest s1 []); cbn [map]; try reflexivity; try exact H.
      * rewrite app_nil_r. exact Ht1.
      * rewrite app_nil_r, Hsettled1, Hstored1. reflexivity.
    + apply (Hrest (logged (LogFailed page_num msg) s1) [LogFailed page_num msg]);
        try reflexivity; try exact H.
      * cbn [logged trace map]. rewrite Ht1, <- app_assoc. reflexivity.
      * rewrite settled_pages_app, Hsettled1, Hstored1. reflexivity.
    + injection H as <- <-.
      exists (Printed (LogProcessing page_num) :: evs1).
      split; [exact Ht1|]. split; [discriminate|].
      change (uploaded (Printed (LogProcessing page_num) :: evs1))
        with (uploaded evs1).
      change (printed (Printed (LogProcessing page_num) :: evs1))
        with (LogProcessing page_num :: printed evs1).
      split; [exact Hweak|]. split; [intros _; exact Hnd1|].
      exact Hstored_in1.
    + injection H as <- <-.
      exists (Printed (LogProcessing page_num) :: evs1).
      split; [exact Ht1|]. split; [discriminate|].
      change (uploaded (Printed (LogProcessing page_num) :: evs1))
        with (uploaded evs1).
      change (printed (Printed (LogProcessing page_num) :: evs1))
        with (LogProcessing page_num :: printed evs1).
      split; [exact Hweak|]. split; [intros _; exact Hnd1|].
      exact Hstored_in1.
Qed.

(** When the [try] body returns, the search client has returned on the
    batch of the page, and that batch is all the body uploaded. *)
Lemma process_page_stored (doc_name year : str) (page_num : Z) (image_path : str)
    (s s' : St) :
  process_page svc doc_name year page_num image_path s = (Ok tt, s') ->
  batch_accepted svc doc_name year page_num (uploaded (new_events s s')).
Proof.
  rewrite process_page_steps.
  destruct (convert_to_jpeg svc image_path (world s)) as [[jpg_path|e] w1];
    [|discriminate].
  destruct (os_path_getsize svc jpg_path w1) as [[size|e] w2]; [|discriminate].
  destruct (extract_page_detail svc jpg_path w2) as [[detail_text|e] w3];
    [|discriminate].
  destruct (generate_page_summary svc detail_text w3) as [[summary_text|e] w4];
    [|discriminate].
  intros Hrun.
  destruct (upload_page_outcome svc doc_name page_num year detail_text summary_text
              default_section
              {| world := w4; trace := trace s ++ [Printed (LogImageSize size)] |})
    as [(e & w5 & _ & Hup) | [(v1 & w5 & e & w6 & _ & _ & Hup)
       | (v1 & w5 & v2 & w6 & r' & w7 & _ & _ & E3 & Hup)]];
    rewrite Hup in Hrun; try discriminate Hrun.
  destruct r' as [[]|e]; [|discriminate Hrun]. injection Hrun as <-.
  erewrite new_events_added
    by (cbn [trace]; rewrite <- !app_assoc; reflexivity).
  exists detail_text, summary_text, v1, v2, w6, w7. cbn zeta in E3 |- *.
  split; [exact E3|]. cbn. apply incl_refl.
Qed.

Lemma batch_accepted_incl (doc_name year : str) (page_num : Z)
    (ups ups' : list (document Vec)) :
  incl ups ups' ->
  batch_accepted svc doc_name year page_num ups ->
  batch_accepted svc doc_name year page_num ups'.
Proof.
  intros Hincl (dt & st & v1 & v2 & w & w' & Hok & Hin).
  exists dt, st, v1, v2, w, w'. split; [exact Hok|].
  eapply incl_tran; [exact Hin | exact Hincl].
Qed.

(** Every page the loop reports as stored had its batch accepted by the
    search client. *)
Lemma ingest_loop_stored (doc_name year : str) (page_images : list (Z * str))
    (s s' : St) (r : result unit) :
  ingest_loop svc doc_name year page_images s = (r, s') ->
  forall page_num,
    In page_num (stored_pages (printed (new_events s s'))) ->
    batch_accepted svc doc_name year page_num (uploaded (new_events s s')).
Proof.
  revert s. induction page_images as [|[p image_path] rest IH]; intros s H q Hq.
  - cbn in H. injection H as _ <-.
    rewrite (new_events_added s s []) in Hq by (symmetry; apply app_nil_r).
    destruct Hq.
  - rewrite ingest_loop_cons in H.
    destruct (process_page svc doc_name year p image_path
                (logged (LogProcessing p) s)) as [r1 s1] eqn:Hpage.
    pose proof (process_page_events _ _ _ _ _ Hpage) as Hev.
    cbn [logged trace] in Hev.
    destruct Hev as (evs1 & Ht1 & _ & _ & Hstored1 & _ & _).
    rewrite <- app_assoc in Ht1. cbn [app] in Ht1.
    assert (Hnew1 : new_events (logged (LogProcessing p) s) s1 = evs1).
    { apply new_events_added. cbn [logged trace].
      rewrite Ht1, <- app_assoc. reflexivity. }
    (* the rest of the loop, run from [s2], after the lines [mid] *)
    assert (Hrest : forall s2 mid,
              trace s2 = trace s1 ++ map Printed mid ->
              stored_pages mid = [] ->
              ingest_loop svc doc_name year rest s2 = (r, s') ->
              batch_accepted svc doc_name year q (uploaded (new_events s s'))).
    { intros s2 mid Ht2 Hmid Hloop.
      destruct (extends_ingest_loop svc doc_name year rest s2) as [evs2 Ht'].
      rewrite Hloop in Ht'. cbn [snd] in Ht'.
      pose proof (new_events_added s2 s' _ Ht') as Hnew2.
      assert (Hpmid : printed (map (@Printed Vec) mid) = mid).
      { clear. induction mid as [|l mid IHm]; [reflexivity|].
        cbn. f_equal. exact IHm. }
      assert (Humid : uploaded (map (@Printed Vec) mid) = []).
      { clear. induction mid as [|l mid IHm]; [reflexivity|]. exact IHm. }
      assert (Hnew : new_events s s' =
                     Printed (LogProcessing p) :: evs1 ++ map Printed mid ++ evs2).
      { apply new_events_added. rewrite Ht', Ht2, Ht1, <- !app_assoc. reflexivity. }
      rewrite Hnew in Hq |- *.
      change (printed (Printed (LogProcessing p) ::
                       evs1 ++ map Printed mid ++ evs2))
        with (LogProcessing p :: printed (evs1 ++ map Printed mid ++ evs2)) in Hq.
      change (stored_pages (LogProcessing p ::
                            printed (evs1 ++ map Printed mid ++ evs2)))
        with (stored_pages (printed (evs1 ++ map Printed mid ++ evs2))) in Hq.
      change (uploaded (Printed (LogProcessing p) ::
                        evs1 ++ map Printed mid ++ evs2))
        with (uploaded (evs1 ++ map Printed mid ++ evs2)).
      rewrite !printed_app, !stored_pages_app, Hpmid, Hmid in Hq.
      rewrite !uploaded_app, Humid. cbn [app] in Hq |- *.
      apply in_app_or in Hq. destruct Hq as [Hq|Hq].
      - rewrite Hstored1 in Hq. destruct r1 as [[]|e1]; [|destruct Hq].
        destruct Hq as [<-|[]].
        apply (batch_accepted_incl (ups := uploaded evs1));
          [apply incl_appl, incl_refl|].
        rewrite <- Hnew1. eapply process_page_stored. exact Hpage.
      - apply (batch_accepted_incl (ups := uploaded evs2));
          [apply incl_appr, incl_refl|].
        rewrite <- Hnew2. apply (IH _ Hloop). rewrite Hnew2. exact Hq. }
    destruct r1 as [[]|[msg|msg|]].
    + apply (Hrest s1 []); [cbn; rewrite app_nil_r; reflexivity | reflexivity
                           | exact H].
    + apply (Hrest (logged (LogFailed p msg) s1) [LogFailed p msg]);
        [reflexivity | reflexivity | exact H].
    + injection H as _ <-. exfalso.
      rewrite (new_events_added s s1 _ Ht1) in Hq.
      change (stored_pages (printed (Printed (LogProcessing p) :: evs1)))
        with (stored_pages (printed evs1)) in Hq.
      rewrite Hstored1 in Hq. exact Hq.
    + injection H as _ <-. exfalso.
      rewrite (new_events_added s s1 _ Ht1) in Hq.
      change (stored_pages (printed (Printed (LogProcessing p) :: evs1)))
        with (stored_pages (printed evs1)) in Hq.
      rewrite Hstored1 in Hq. exact Hq.
Qed.

(** Leaving the block changes no trace; its outcome is that of the body
    unless the removal raises. *)
Lemma leave_TemporaryDirectory_outcome {A} (tmpdir : str) (r : result A) (s : St) :
  exists r' w,
    leave_TemporaryDirectory svc tmpdir (r, s) =
      (r', {| world := w; trace := trace s |}) /\
    (r' = r \/
     exists e, cleanup svc tmpdir (world s) = (Raise e, w) /\ r' = Raise e).
Proof.
  unfold leave_TemporaryDirectory.
  destruct (cleanup svc tmpdir (world s)) as [[[]|e] w] eqn:Hrm.
  - exists r, w. split; [reflexivity | left; reflexivity].
  - exists (Raise e), w. split; [reflexivity|].
    right. exists e. split; reflexivity.
Qed.

(** A run of [ingest_pdf], by the point where it stops: at the temporary
    directory, at the rendering, in or after the page loop, or at the
    removal of the temporary directory. *)
Lemma ingest_pdf_run (pdf_path doc_name year : str) (s0 s' : St) (r : result unit) :
  ingest_pdf svc pdf_path doc_name year s0 = (r, s') ->
  let started := trace s0 ++ [Printed (LogStarting pdf_path)] in
  (exists e s1,
     call (mkdtemp svc) (logged (LogStarting pdf_path) s0) = (Raise e, s1) /\
     r = Raise e /\ trace s' = started) \/
  (exists tmpdir s1,
     call (mkdtemp svc) (logged (LogStarting pdf_path) s0) = (Ok tmpdir, s1) /\
     ((exists e s2,
         pdf_to_images svc pdf_path tmpdir s1 = (Raise e, s2) /\
         trace s' = started /\
         (r = Raise e \/
          exists e' w', cleanup svc tmpdir (world s2) = (Raise e', w') /\
                        r = Raise e')) \/
      (exists images s2 r2 s3,
         pdf_to_images svc pdf_path tmpdir s1 = (Ok images, s2) /\
         trace s2 = started /\
         ingest_loop svc doc_name year images s2 = (r2, s3) /\
         ((r = r2 /\
           trace s' = trace s3 ++
                      match r2 with
                      | Ok _ => [Printed LogCompleted]
                      | Raise _ => []
                      end) \/
          (trace s' = trace s3 /\
           exists e' w', cleanup svc tmpdir (world s3) = (Raise e', w') /\
                         r = Raise e'))))).
Proof.
  intros Hrun started.
  assert (Hcall : forall r1 s1,
            call (mkdtemp svc) (logged (LogStarting pdf_path) s0) = (r1, s1) ->
            trace s1 = started).
  { intros r1 s1 Hc. unfold call in Hc.
    destruct (mkdtemp svc (world (logged (LogStarting pdf_path) s0))) as [x w].
    injection Hc as _ <-. reflexivity. }
  unfold ingest_pdf in Hrun. unfold bind at 1 in Hrun.
  unfold print at 1, emit at 1 in Hrun.
  fold (logged (LogStarting pdf_path) s0) in Hrun.
  unfold bind at 1, with_TemporaryDirectory in Hrun.
  destruct (call (mkdtemp svc) (logged (LogStarting pdf_path) s0))
    as [[tmpdir|e] s1] eqn:Htmp.
  2:{ injection Hrun as <- <-. left. exists e, s1.
      split; [reflexivity|]. split; [reflexivity | exact (Hcall _ _ eq_refl)]. }
  right. exists tmpdir, s1. split; [reflexivity|].
  unfold bind at 1 in Hrun.
  destruct (pdf_to_images svc pdf_path tmpdir s1) as [[images|e] s2] eqn:Hpages.
  2:{ left. exists e, s2. split; [reflexivity|].
      assert (Ht2 : trace s2 = started).
      { rewrite <- (Hcall _ _ eq_refl).
        unfold pdf_to_images, bind in Hpages. unfold call at 1 in Hpages.
        destruct (fitz_open svc pdf_path (world s1)) as [[n|e'] w].
        - apply pdf_to_images_loop_result in Hpages. apply Hpages.
        - injection Hpages as _ <-. reflexivity. }
      destruct (leave_TemporaryDirectory_outcome tmpdir (@Raise unit e) s2)
        as (r' & w & Hleave & Hr').
      rewrite Hleave in Hrun.
      destruct Hr' as [->|(e' & Hrm & ->)]; cbn in Hrun;
        injection Hrun as <- <-; (split; [exact Ht2|]).
      - left. reflexivity.
      - right. exists e', w. split; [exact Hrm | reflexivity]. }
  right.
  destruct (ingest_loop svc doc_name year images s2) as [r2 s3] eqn:Hloop.
  exists images, s2, r2, s3. split; [reflexivity|].
  split.
  { apply pdf_to_images_returns in Hpages.
    destruct Hpages as (n & w & _ & _ & _ & Ht). rewrite Ht.
    exact (Hcall _ _ eq_refl). }
  split; [exact Hloop|].
  destruct (leave_TemporaryDirectory_outcome tmpdir r2 s3)
    as (r' & w & Hleave & Hr').
  rewrite Hleave in Hrun.
  destruct Hr' as [->|(e' & Hrm & ->)].
  - left. destruct r2 as [[]|e]; cbn in Hrun; injection Hrun as <- <-;
      (split; [reflexivity|]); cbn [trace]; [reflexivity|].
    rewrite app_nil_r. reflexivity.
  - right. cbn in Hrun. injection Hrun as <- <-. split; [reflexivity|].
    exists e', w. split; [exact Hrm | reflexivity].
Qed.

(** X8: the output of a run that returns accounts for every page of the
    PDF. When [ingest_pdf] returns, its last line is the completion line,
    whether pages failed or not; and with [n] the number of pages
    [fitz.open] found in the PDF, the "Processing" lines name pages 1 to
    [n] in order, each page is reported exactly once as stored or as
    failed, in page order, and the stored and the failed pages add up to
    [n]. *)
Theorem ingest_pdf_accounts_for_every_page
    (pdf_path doc_name year : str) (s0 s' : St) :
  ingest_pdf svc pdf_path doc_name year s0 = (Ok tt, s') ->
  let lines := printed (new_events s0 s') in
  exists tmpdir s1 n w,
    call (mkdtemp svc) (logged (LogStarting pdf_path) s0) = (Ok tmpdir, s1) /\
    fitz_open svc pdf_path (world s1) = (Ok n, w) /\
    List.last lines (LogStarting pdf_path) = LogCompleted /\
    processing_pages lines = map Z.of_nat (seq 1 n) /\
    settled_pages lines = map Z.of_nat (seq 1 n) /\
    (List.length (stored_pages lines) + List.length (failed_pages lines))%nat = n.
Proof.
  intros Hrun lines. apply ingest_pdf_run in Hrun. cbn zeta in Hrun.
  destruct Hrun as [(e & s1 & _ & Hr & _)
                   | (tmpdir & s1 & Htmp & [(e & s2 & _ & _ & [Hr|(e' & w' & _ & Hr)])
                   | (images & s2 & r2 & s3 & Hpages & Ht2 & Hloop &
                      [[<- Ht'] | (_ & e' & w' & _ & Hr)])])];
    try discriminate Hr.
  apply pdf_to_images_returns in Hpages.
  destruct Hpages as (n & w & Hopen & _ & Hnums & _).
  apply ingest_loop_events in Hloop.
  destruct Hloop as (evs & Ht3 & Hok & _).
  destruct (Hok eq_refl) as [Hproc Hsettled].
  assert (Hnew : new_events s0 s' =
                 Printed (LogStarting pdf_path) :: evs ++ [Printed LogCompleted]).
  { apply new_events_added. rewrite Ht', Ht3, Ht2, <- !app_assoc. reflexivity. }
  assert (Hlines : lines = LogStarting pdf_path :: printed evs ++ [LogCompleted]).
  { unfold lines. rewrite Hnew.
    change (printed (Printed (LogStarting pdf_path) :: evs ++ [Printed LogCompleted]))
      with (LogStarting pdf_path :: printed (evs ++ [Printed LogCompleted])).
    rewrite printed_app. reflexivity. }
  exists tmpdir, s1, n, w. rewrite Hlines.
  split; [exact Htmp|]. split; [exact Hopen|].
  split; [|split; [|split]].
  - rewrite app_comm_cons. apply last_last.
  - change (processing_pages (LogStarting pdf_path :: printed evs ++ [LogCompleted]))
      with (processing_pages (printed evs ++ [LogCompleted])).
    rewrite processing_pages_app, Hproc, Hnums. apply app_nil_r.
  - change (settled_pages (LogStarting pdf_path :: printed evs ++ [LogCompleted]))
      with (settled_pages (printed evs ++ [LogCompleted])).
    rewrite settled_pages_app, Hsettled, Hnums. apply app_nil_r.
  - rewrite <- settled_length.
    change (settled_pages (LogStarting pdf_path :: printed evs ++ [LogCompleted]))
      with (settled_pages (printed evs ++ [LogCompleted])).
    rewrite settled_pages_app, Hsettled, Hnums, app_nil_r.
    rewrite length_map, length_seq. reflexivity.
Qed.

(** The events of a run of [ingest_pdf] that got to the page loop: the
    starting line, the events of the loop, and at most the completion
    line. *)
Lemma ingest_pdf_loop_events (pdf_path doc_name year : str) (s0 s' : St)
    (r : result unit) :
  ingest_pdf svc pdf_path doc_name year s0 = (r, s') ->
  new_events s0 s' = [Printed (LogStarting pdf_path)] \/
  exists tmpdir s1 images s2 r2 s3 tail,
    call (mkdtemp svc) (logged (LogStarting pdf_path) s0) = (Ok tmpdir, s1) /\
    pdf_to_images svc pdf_path tmpdir s1 = (Ok images, s2) /\
    ingest_loop svc doc_name year images s2 = (r2, s3) /\
    new_events s0 s' =
      Printed (LogStarting pdf_path) :: new_events s2 s3 ++ tail /\
    (tail = [] \/ tail = [Printed LogCompleted]).
Proof.
  intros Hrun. apply ingest_pdf_run in Hrun. cbn zeta in Hrun.
  destruct Hrun as [(e & s1 & _ & _ & Ht)
                   | (tmpdir & s1 & Htmp & [(e & s2 & _ & Ht & _)
                   | (images & s2 & r2 & s3 & Hpages & Ht2 & Hloop & Hend)])].
  - left. apply new_events_added. exact Ht.
  - left. apply new_events_added. exact Ht.
  - right.
    destruct (extends_ingest_loop svc doc_name year images s2) as [evs Ht3].
    rewrite Hloop in Ht3. cbn [snd] in Ht3.
    destruct Hend as [[_ Ht'] | (Ht' & _)].
    + exists tmpdir, s1, images, s2, r2, s3,
        (match r2 with Ok _ => [Printed LogCompleted] | Raise _ => [] end).
      repeat (split; [assumption|]). split.
      * rewrite (new_events_added s2 s3 _ Ht3).
        apply new_events_added. rewrite Ht', Ht3, Ht2, <- !app_assoc. reflexivity.
      * destruct r2; [right | left]; reflexivity.
    + exists tmpdir, s1, images, s2, r2, s3, [].
      repeat (split; [assumption|]). split; [|left; reflexivity].
      rewrite (new_events_added s2 s3 _ Ht3).
      apply new_events_added. rewrite Ht', Ht3, Ht2, app_nil_r, <- !app_assoc.
      reflexivity.
Qed.

(** What a run of [ingest_pdf] uploads, whatever its outcome. *)
Lemma ingest_pdf_uploads (pdf_path doc_name year : str) (s0 s' : St)
    (r : result unit) :
  ingest_pdf svc pdf_path doc_name year s0 = (r, s') ->
  Forall (fun d =>
            (0 < page d)%Z /\
            In (content_type d) [page_detail; page_summary] /\
            d = page_document doc_name (page d) year default_section
                  (content d) (content_type d) (contentVector d))
         (uploaded (new_events s0 s')) /\
  NoDup (map (@id Vec) (uploaded (new_events s0 s'))) /\
  (forall page_num,
     In page_num (stored_pages (printed (new_events s0 s'))) ->
     batch_accepted svc doc_name year page_num (uploaded (new_events s0 s'))).
Proof.
  intros Hrun. apply ingest_pdf_loop_events in Hrun.
  destruct Hrun as [-> | (tmpdir & s1 & images & s2 & r2 & s3 & tail & _ &
                          Hpages & Hloop & -> & Htail)].
  - cbn. split; [constructor|]. split; [constructor | intros x []].
  - pose proof (pdf_to_images_entries_differ svc _ _ _ Hpages) as (Hpos & Hnd & _).
    pose proof (ingest_loop_stored _ _ _ _ Hloop) as Hstored.
    apply ingest_loop_events in Hloop.
    destruct Hloop as (evs & Ht3 & _ & Hrec & Hnodup & _).
    rewrite (new_events_added s2 s3 _ Ht3) in *.
    change (uploaded (Printed (LogStarting pdf_path) :: evs ++ tail))
      with (uploaded (evs ++ tail)).
    change (printed (Printed (LogStarting pdf_path) :: evs ++ tail))
      with (LogStarting pdf_path :: printed (evs ++ tail)).
    change (stored_pages (LogStarting pdf_path :: printed (evs ++ tail)))
      with (stored_pages (printed (evs ++ tail))).
    assert (Hup : uploaded (evs ++ tail) = uploaded evs).
    { rewrite uploaded_app. destruct Htail as [->| ->]; apply app_nil_r. }
    assert (Hst : stored_pages (printed (evs ++ tail)) = stored_pages (printed evs)).
    { rewrite printed_app, stored_pages_app.
      destruct Htail as [->| ->]; apply app_nil_r. }
    rewrite Hup, Hst.
    split; [|split; [exact (Hnodup Hnd) | exact Hstored]].
    eapply Forall_impl; [|exact Hrec]. intros d (Hp & Hty & Hd).
    split; [|split; assumption].
    apply in_map_iff in Hp. destruct Hp as (pi & <- & Hpi).
    rewrite Forall_forall in Hpos. exact (Hpos _ Hpi).
Qed.

(** X9: within one run of [ingest_pdf], no two uploaded records have the
    same id, whatever the outcome of the run: no record of the run
    overwrites another one of the same run in the index. *)
Theorem ingest_pdf_uploads_distinct_ids
    (pdf_path doc_name year : str) (s0 s' : St) (r : result unit) :
  ingest_pdf svc pdf_path doc_name year s0 = (r, s') ->
  NoDup (map (@id Vec) (uploaded (new_events s0 s'))).
Proof.
  intros Hrun. apply (ingest_pdf_uploads _ _ _ _ Hrun).
Qed.

(** X10: every record a run of [ingest_pdf] uploads carries the document
    name and the year given to [ingest_pdf], the section
    ["Auto-detected"], a positive page number, one of the two content
    types, and the id made of the sanitized name, that page number and
    that content type. *)
Theorem ingest_pdf_uploaded_record_fields
    (pdf_path doc_name year : str) (s0 s' : St) (r : result unit)
    (d : document Vec) :
  ingest_pdf svc pdf_path doc_name year s0 = (r, s') ->
  In d (uploaded (new_events s0 s')) ->
  doc d = doc_name /\ Ingest.year d = year /\ section d = lit "Auto-detected" /\
  (0 < page d)%Z /\
  In (content_type d) [page_detail; page_summary] /\
  id d = record_id doc_name (page d) (content_type d).
Proof.
  intros Hrun Hin.
  destruct (ingest_pdf_uploads _ _ _ _ Hrun) as (Hrec & _).
  rewrite Forall_forall in Hrec. destruct (Hrec _ Hin) as (Hpos & Hty & Hd).
  rewrite Hd. cbn. repeat split; assumption.
Qed.



(** X13: a raise that is not an [Exception] (a [KeyboardInterrupt], say)
    while a page is processed stops the ingestion there: nothing is
    printed after the point of the raise, the later pages are not
    processed, no completion line appears. [ingest_pdf] ends by a raise:
    of that exception when the temporary directory is then removed, of
    the exception of the removal when the removal fails. *)
Theorem ingest_pdf_stops_on_non_Exception
    (pdf_path doc_name year : str) (before rest : list (Z * str))
    (page_num : Z) (image_path : str)
    (s0 s1 s2 s3 s4 : St) (tmpdir : str) (e : exn)
    (removal : result unit) (w5 : World) :
  (forall msg, e <> Exception msg) ->
  call (mkdtemp svc) (logged (LogStarting pdf_path) s0) = (Ok tmpdir, s1) ->
  pdf_to_images svc pdf_path tmpdir s1 =
    (Ok (before ++ (page_num, image_path) :: rest), s2) ->
  ingest_loop svc doc_name year before s2 = (Ok tt, s3) ->
  process_page svc doc_name year page_num image_path
    (logged (LogProcessing page_num) s3) = (Raise e, s4) ->
  cleanup svc tmpdir (world s4) = (removal, w5) ->
  ingest_pdf svc pdf_path doc_name year s0 =
  (match removal with
   | Ok _ => Raise e
   | Raise e' => Raise e'
   end,
   {| world := w5; trace := trace s4 |}).
Proof.
  intros Hne Htmp Hpages Hbefore Hfail Hrm.
  unfold ingest_pdf. unfold bind at 1. unfold print at 1, emit at 1.
  fold (logged (LogStarting pdf_path) s0).
  unfold bind at 1, with_TemporaryDirectory. rewrite Htmp.
  unfold bind at 1. rewrite Hpages.
  rewrite ingest_loop_app, Hbefore. cbn [and_then].
  rewrite ingest_loop_cons, Hfail.
  destruct e as [msg|msg|]; [contradiction (Hne msg); reflexivity | |];
    unfold leave_TemporaryDirectory; rewrite Hrm;
    destruct removal as [[]|e']; reflexivity.
Qed.

End LoopFacts.

(* ------------------------------------------------------------------ *)
(** * Failures of [upload_page] *)
(* ------------------------------------------------------------------ *)

Section UploadFacts.

Import Ingest Observe.

Context {World Vec : Type} (svc : Services World Vec).

Local Notation "'St'" := (state World Vec).

(** X14: [upload_page] uploads both records of a page or none. When it
    raises, it has printed nothing, and either an embedding call raised
    that exception and nothing was handed to the search client (the
    detail record is not uploaded alone when the summary cannot be
    embedded), or both records were handed over in one batch and the
    upload itself raised. *)
Theorem upload_page_all_or_nothing (doc_name : str) (page_num : Z)
    (year detail_text summary_text section : str) (s s' : St) (e : exn) :
  upload_page svc doc_name page_num year detail_text summary_text section s =
    (Raise e, s') ->
  printed (new_events s s') = [] /\
  ((uploaded (new_events s s') = [] /\
    (fst (create_embedding svc detail_text (world s)) = Raise e \/
     exists v1 w1,
       create_embedding svc detail_text (world s) = (Ok v1, w1) /\
       fst (create_embedding svc summary_text w1) = Raise e)) \/
   (exists v1 w1 v2 w2,
      create_embedding svc detail_text (world s) = (Ok v1, w1) /\
      create_embedding svc summary_text w1 = (Ok v2, w2) /\
      let documents :=
        [ page_document doc_name page_num year section detail_text page_detail v1;
          page_document doc_name page_num year section summary_text page_summary v2 ] in
      uploaded (new_events s s') = documents /\
      fst (upload_documents svc documents w2) = Raise e)).
Proof.
  intros Hrun.
  destruct (upload_page_outcome svc doc_name page_num year detail_text summary_text
              section s)
    as [(e' & w1 & E1 & Hup) | [(v1 & w1 & e' & w2 & E1 & E2 & Hup)
       | (v1 & w1 & v2 & w2 & r' & w3 & E1 & E2 & E3 & Hup)]];
    rewrite Hup in Hrun.
  - injection Hrun as <- <-.
    rewrite (new_events_added s _ []) by (cbn [trace]; rewrite app_nil_r; reflexivity).
    split; [reflexivity|]. left. split; [reflexivity|].
    left. rewrite E1. reflexivity.
  - injection Hrun as <- <-.
    rewrite (new_events_added s _ []) by (cbn [trace]; rewrite app_nil_r; reflexivity).
    split; [reflexivity|]. left. split; [reflexivity|].
    right. exists v1, w1. split; [exact E1|]. rewrite E2. reflexivity.
  - destruct r' as [[]|e']; [discriminate Hrun|]. injection Hrun as <- <-.
    erewrite new_events_added by (cbn [trace]; reflexivity).
    split; [reflexivity|]. right. exists v1, w1, v2, w2.
    split; [exact E1|]. split; [exact E2|]. cbn zeta in E3 |- *.
    split; [reflexivity|]. rewrite E3. reflexivity.
Qed.

End UploadFacts.

(* ------------------------------------------------------------------ *)
(** * The path [convert_to_jpeg] returns *)
(* ------------------------------------------------------------------ *)

Section ConvertFacts.

Import Convert.

Context {World Image : Type} (svc : Services World Image).

(** Nothing to replace: the scan copies a text in which [old] does not
    occur. *)
Lemma replace_scan_no_occurrence (old new text : str) :
  contains old text = false -> replace_scan old new 0 text = text.
Proof.
  induction text as [|c text IH]; intros Hno; [reflexivity|].
  cbn [contains] in Hno. apply orb_false_iff in Hno. destruct Hno as [Hs Hno].
  cbn [replace_scan]. rewrite Hs. f_equal. apply IH. exact Hno.
Qed.

Lemma replace_scan_dotless_stem (new stem rest : str) :
  ~ In (chr ".") stem ->
  replace_scan (lit ".png") new 0 (stem ++ rest) =
  stem ++ replace_scan (lit ".png") new 0 rest.
Proof.
  induction stem as [|c stem IH]; intros Hno; [reflexivity|].
  rewrite <- app_comm_cons. cbn [replace_scan].
  assert (Hc : (chr "." =? c)%N = false).
  { apply N.eqb_neq. intros E. apply Hno. left. symmetry. exact E. }
  change (startswith (lit ".png") (c :: stem ++ rest))
    with ((chr "." =? c)%N && startswith (lit "png") (stem ++ rest)).
  rewrite Hc. cbn [andb]. rewrite <- app_comm_cons. f_equal. apply IH.
  intros Hin. apply Hno. right. exact Hin.
Qed.

(** A [.png] path whose stem holds no dot becomes the same path with
    extension [.jpg]. *)
Lemma jpg_path_of_png (stem : str) :
  ~ In (chr ".") stem ->
  jpg_path_of (stem ++ lit ".png") = stem ++ lit ".jpg".
Proof.
  intros Hno. unfold jpg_path_of, replace. cbn [lit].
  change (replace_scan (lit ".png") (lit ".jpg") 0 (stem ++ lit ".png") =
          stem ++ lit ".jpg").
  rewrite (replace_scan_dotless_stem _ _ _ Hno). reflexivity.
Qed.

Lemma os_path_join_app (a b c : str) :
  Ingest.os_path_join a (b ++ c) = Ingest.os_path_join a b ++ c.
Proof.
  unfold Ingest.os_path_join.
  destruct (rev a) as [|last _]; [reflexivity|].
  destruct (last =? chr "/")%N; rewrite <- ?app_assoc; reflexivity.
Qed.

(** What [convert_to_jpeg] has done when it returns: the image was
    opened, saved under the path it returns, and the input path
    removed, in this order. *)
Lemma convert_to_jpeg_returns (image_path : str) (quality : Z) (w w' : World)
    (jpg_path : str) :
  convert_to_jpeg svc image_path quality w = (Ok jpg_path, w') ->
  jpg_path = jpg_path_of image_path /\
  exists img w1 w2,
    Image_open_convert svc image_path w = (Ok img, w1) /\
    Image_save svc img jpg_path quality w1 = (Ok tt, w2) /\
    os_remove svc image_path w2 = (Ok tt, w').
Proof.
  unfold convert_to_jpeg, bind, ret.
  destruct (Image_open_convert svc image_path w) as [[img|e] w1]; [|discriminate].
  destruct (Image_save svc img (jpg_path_of image_path) quality w1)
    as [[[]|e] w2] eqn:Hsave; [|discriminate].
  destruct (os_remove svc image_path w2) as [[[]|e] w3] eqn:Hrm; [|discriminate].
  intros H. injection H as <- <-. split; [reflexivity|].
  exists img, w1, w2. repeat split; assumption.
Qed.

(** X15: on the images [pdf_to_images] writes into a directory whose
    path holds no dot, [convert_to_jpeg] returns the same file name with
    the extension [.jpg], in the same directory; this is another path
    than the one it removes. *)
Theorem convert_to_jpeg_rendered_page (output_dir : str) (page_index : nat)
    (quality : Z) (w w' : World) (jpg_path : str) :
  ~ In (chr ".") output_dir ->
  convert_to_jpeg svc (snd (Observe.page_image output_dir page_index)) quality w =
    (Ok jpg_path, w') ->
  jpg_path =
    Ingest.os_path_join output_dir
      (lit "page_" ++ str_of_int (Z.of_nat page_index + 1) ++ lit ".jpg") /\
  jpg_path <> snd (Observe.page_image output_dir page_index).
Proof.
  intros Hdir Hrun. apply convert_to_jpeg_returns in Hrun.
  destruct Hrun as [-> _]. unfold Observe.page_image. cbn [snd].
  set (name := lit "page_" ++ str_of_int (Z.of_nat page_index + 1)).
  assert (Hname : ~ In (chr ".") name).
  { unfold name. intros Hin. apply in_app_or in Hin. destruct Hin as [Hin|Hin].
    - vm_compute in Hin. intuition discriminate.
    - pose proof (str_of_int_allowed (Z.of_nat page_index + 1)) as Hall.
      rewrite Forall_forall in Hall. specialize (Hall _ Hin).
      vm_compute in Hall. discriminate Hall. }
  assert (Hstem : ~ In (chr ".") (Ingest.os_path_join output_dir name)).
  { unfold Ingest.os_path_join. destruct (rev output_dir) as [|last _];
      [exact Hname|].
    destruct (last =? chr "/")%N; intros Hin;
      apply in_app_or in Hin; destruct Hin as [Hin|Hin];
      try (exact (Hdir Hin)); try (exact (Hname Hin)).
    apply in_app_or in Hin. destruct Hin as [Hin|Hin]; [|exact (Hname Hin)].
    destruct Hin as [Hin|[]]. discriminate Hin. }
  replace (lit "page_" ++ str_of_int (Z.of_nat page_index + 1) ++ lit ".png")
    with (name ++ lit ".png") by (unfold name; rewrite <- app_assoc; reflexivity).
  replace (lit "page_" ++ str_of_int (Z.of_nat page_index + 1) ++ lit ".jpg")
    with (name ++ lit ".jpg") by (unfold name; rewrite <- app_assoc; reflexivity).
  rewrite !os_path_join_app, (jpg_path_of_png _ Hstem).
  split; [reflexivity|].
  intros H. apply app_inv_head in H. discriminate H.
Qed.

(** X16: a path in which [".png"] does not occur (an upper-case
    extension, a file that is a JPEG already) is not renamed: the JPEG is
    saved over the input file and that same path is then removed. When
    [convert_to_jpeg] returns, it returns a path that is no longer
    there. *)
Theorem convert_to_jpeg_removes_unrenamed_file (image_path : str) (quality : Z)
    (w w' : World) (jpg_path : str) :
  remove_removes svc ->
  contains (lit ".png") image_path = false ->
  convert_to_jpeg svc image_path quality w = (Ok jpg_path, w') ->
  jpg_path = image_path /\ os_path_exists svc w' jpg_path = false.
Proof.
  intros Hremove Hno Hrun. apply convert_to_jpeg_returns in Hrun.
  destruct Hrun as (-> & img & w1 & w2 & _ & _ & Hrm).
  assert (Hsame : jpg_path_of image_path = image_path).
  { unfold jpg_path_of, replace. cbn [lit].
    exact (replace_scan_no_occurrence _ (lit ".jpg") _ Hno). }
  rewrite Hsame. split; [reflexivity|]. exact (Hremove _ _ _ Hrm).
Qed.

(** The list file system keeps the promise of [os.remove]. *)
Lemma list_fs_remove_removes : remove_removes list_fs.
Proof.
  intros path files files' H. cbn in H |- *.
  destruct (mem path files); [|discriminate H]. injection H as <-.
  unfold mem. induction files as [|f files IH]; [reflexivity|].
  cbn. destruct (str_eqb path f) eqn:E; cbn; [exact IH|].
  rewrite E. exact IH.
Qed.

End ConvertFacts.

Module ConvertExamples.

Import Convert.

Lemma convert_to_jpeg_rendered_page_witness :
  fst (convert_to_jpeg list_fs (lit "/tmp/ingest/page_1.png") default_quality
         [lit "/tmp/ingest/page_1.png"]) = Ok (lit "/tmp/ingest/page_1.jpg") /\
  lit "/tmp/ingest/page_1.jpg" <> lit "/tmp/ingest/page_1.png".
Proof.
  split; [vm_compute; reflexivity|].
  refine (proj2 (@convert_to_jpeg_rendered_page _ _ list_fs (lit "/tmp/ingest") 0
                   default_quality [lit "/tmp/ingest/page_1.png"]
                   [lit "/tmp/ingest/page_1.jpg"] (lit "/tmp/ingest/page_1.jpg")
                   _ _)).
  - vm_compute. intuition discriminate.
  - vm_compute. reflexivity.
Defined.

Lemma convert_to_jpeg_removes_unrenamed_file_witness :
  fst (convert_to_jpeg list_fs (lit "scan.PNG") default_quality [lit "scan.PNG"]) =
    Ok (lit "scan.PNG") /\
  os_path_exists list_fs
    (snd (convert_to_jpeg list_fs (lit "scan.PNG") default_quality [lit "scan.PNG"]))
    (lit "scan.PNG") = false.
Proof.
  split; [vm_compute; reflexivity|].
  refine (proj2 (@convert_to_jpeg_removes_unrenamed_file _ _ list_fs
                   (lit "scan.PNG") default_quality [lit "scan.PNG"]
                   (snd (convert_to_jpeg list_fs (lit "scan.PNG") default_quality
                           [lit "scan.PNG"]))
                   (lit "scan.PNG") list_fs_remove_removes _ _));
    vm_compute; reflexivity.
Defined.

End ConvertExamples.

(* ------------------------------------------------------------------ *)
(** * More on retrieval and on the chat session *)
(* ------------------------------------------------------------------ *)

Section ChatFacts.

Import App Turns.

Context {World Vec : Type} (svc : Services World Vec).

Local Notation "'St'" := (state World).

(** The only thing [r[key]] raises is the [KeyError] for [key]. *)
Lemma getitem_raises_key (r : hit) (key : str) (e : exn) :
  getitem r key = Raise e -> e = KeyError key.
Proof.
  induction r as [|[k v] r IH]; cbn.
  - intros [= <-]. reflexivity.
  - destruct (str_eqb k key); [discriminate | exact IH].
Qed.

(** The loop over the results, by the first incomplete result. *)
Lemma retrieve_loop_complete (results : list hit) (docs : list context_doc) :
  (Forall (fun r => exists d, built_from r d) results ->
   exists out, retrieve_loop results docs = Ok out) /\
  (~ Forall (fun r => exists d, built_from r d) results ->
   exists key,
     In key [lit "content"; lit "doc"; lit "page"; lit "content_type"] /\
     retrieve_loop results docs = Raise (KeyError key)).
Proof.
  revert docs. induction results as [|r rest IH]; intros docs.
  - split; [intros _; exists docs; reflexivity|].
    intros H. contradiction H. constructor.
  - cbn [retrieve_loop].
    destruct (getitem r (lit "content")) as [c|e] eqn:Ec.
    2:{ pose proof (getitem_raises_key _ _ Ec) as He. subst e. split.
        - intros H. inversion H as [|x l (d & Hd & _) _]. subst.
          congruence.
        - intros _. exists (lit "content"). split; [left|]; reflexivity. }
    destruct (getitem r (lit "doc")) as [d|e] eqn:Ed.
    2:{ pose proof (getitem_raises_key _ _ Ed) as He. subst e. split.
        - intros H. inversion H as [|x l (d & _ & Hd & _) _]. subst.
          congruence.
        - intros _. exists (lit "doc"). split; [right; left|]; reflexivity. }
    destruct (getitem r (lit "page")) as [p|e] eqn:Ep.
    2:{ pose proof (getitem_raises_key _ _ Ep) as He. subst e. split.
        - intros H. inversion H as [|x l (d' & _ & _ & Hd & _) _]. subst.
          congruence.
        - intros _. exists (lit "page").
          split; [right; right; left|]; reflexivity. }
    destruct (getitem r (lit "content_type")) as [t|e] eqn:Et.
    2:{ pose proof (getitem_raises_key _ _ Et) as He. subst e. split.
        - intros H. inversion H as [|x l (d' & _ & _ & _ & Hd) _]. subst.
          congruence.
        - intros _. exists (lit "content_type").
          split; [right; right; right; left|]; reflexivity. }
    destruct (IH (docs ++ [{| content := c; doc := d; page := p; content_type := t |}]))
      as [Hyes Hno].
    split.
    + intros H. apply Hyes. inversion H; assumption.
    + intros H. apply Hno. intros Hrest. apply H. constructor; [|exact Hrest].
      exists {| content := c; doc := d; page := p; content_type := t |}.
      repeat split; assumption.
Qed.

(** X17: once the query is embedded and the service has answered,
    [retrieve_documents] returns exactly when every result carries the
    four fields it reads. One result without one of them makes the whole
    call raise the [KeyError] of a missing field, whose message is the
    name of the field between single quotes: no document is returned,
    also not for the complete results. *)
Theorem retrieve_documents_needs_complete_results (query : str) (top_k : Z)
    (s : St) (vector : Vec) (w1 w2 : World) (results : list hit) :
  embeddings_create svc query (world s) = (Ok vector, w1) ->
  search svc vector top_k w1 = (Ok results, w2) ->
  let s' := {| session := session s; world := w2 |} in
  (Forall (fun r => exists d, built_from r d) results ->
   exists docs, retrieve_documents svc query top_k s = (Ok docs, s')) /\
  (~ Forall (fun r => exists d, built_from r d) results ->
   exists key,
     In key [lit "content"; lit "doc"; lit "page"; lit "content_type"] /\
     retrieve_documents svc query top_k s =
       (Raise (Exception (lit "'" ++ key ++ lit "'")), s')).
Proof.
  intros E1 E2 s'.
  assert (Hrun : retrieve_documents svc query top_k s =
                 (retrieve_loop results [], s')).
  { unfold retrieve_documents, embed_query, bind, call.
    rewrite E1. cbn [world session]. rewrite E2. reflexivity. }
  rewrite Hrun. destruct (retrieve_loop_complete results []) as [Hyes Hno].
  split.
  - intros H. destruct (Hyes H) as (out & ->). exists out. reflexivity.
  - intros H. destruct (Hno H) as (key & Hk & ->). exists key.
    split; [exact Hk | reflexivity].
Qed.

(** The streaming loop appends the token of each chunk, in order. *)
Lemma stream_loop_concat (stream : list chunk) (full_response : str) :
  stream_loop stream full_response =
  full_response ++ List.concat (map chunk_token stream).
Proof.
  revert full_response. induction stream as [|c stream IH]; intros acc.
  - cbn. rewrite app_nil_r. reflexivity.
  - cbn [stream_loop map List.concat]. rewrite IH.
    destruct (chunk_token c) as [|x token]; cbn [truthy].
    + reflexivity.
    + rewrite <- app_assoc. reflexivity.
Qed.

(** The session once the user message of a turn is stored. *)
Lemma chat_turn_outcome (text : str) (s s' : St) (r : result unit)
    (h : list message) :
  messages (session s) = Some h ->
  chat_turn svc text s = (r, s') ->
  let asked_state :=
    {| session := {| messages := Some (h ++ [user_message text]);
                     suggested_input := suggested_input (session s) |};
       world := world s |} in
  (exists e, r = Raise e /\
             messages (session s') = Some (h ++ [user_message text])) \/
  (r = Ok tt /\
   exists contexts s1 stream,
     retrieve_documents svc text default_top_k asked_state = (Ok contexts, s1) /\
     generate_answer_stream svc text contexts (world s1) = (Ok stream, world s') /\
     messages (session s') =
     Some (h ++ [user_message text;
                 assistant_message (List.concat (map chunk_token stream))])).
Proof.
  intros Hm Hrun asked_state.
  unfold chat_turn in Hrun. unfold bind at 1 in Hrun.
  unfold append_message at 1, bind, get_session, put_session in Hrun.
  rewrite Hm in Hrun. fold asked_state in Hrun.
  fold (user_message text) in Hrun.
  change ({| session := {| messages := Some (h ++ [user_message text]);
                           suggested_input := suggested_input (session s) |};
             world := world s |}) with asked_state in Hrun.
  destruct (retrieve_documents svc text default_top_k asked_state)
    as [[contexts|e] s1] eqn:Hret.
  2:{ injection Hrun as <- <-. left. exists e. split; [reflexivity|].
      unfold retrieve_documents, embed_query, bind, call in Hret.
      destruct (embeddings_create svc text (world asked_state)) as [[v|e1] w1];
        [|injection Hret as _ <-; reflexivity].
      cbn [world session] in Hret.
      destruct (search svc v default_top_k w1) as [[res|e2] w2];
        injection Hret as _ <-; reflexivity. }
  assert (Hs1 : session s1 = session asked_state).
  { unfold retrieve_documents, embed_query, bind, call in Hret.
    destruct (embeddings_create svc text (world asked_state)) as [[v|e1] w1];
      [|discriminate Hret].
    cbn [world session] in Hret.
    destruct (search svc v default_top_k w1) as [[res|e2] w2];
      [|discriminate Hret].
    injection Hret as _ <-. reflexivity. }
  unfold call in Hrun.
  destruct (generate_answer_stream svc text contexts (world s1))
    as [[stream|e] w3] eqn:Hgen.
  2:{ injection Hrun as <- <-. left. exists e. split; [reflexivity|].
      cbn [session]. rewrite Hs1. reflexivity. }
  unfold append_message, bind, get_session, put_session in Hrun.
  cbn [session world] in Hrun. rewrite Hs1 in Hrun.
  cbn [session messages suggested_input asked_state] in Hrun.
  injection Hrun as <- <-. right. split; [reflexivity|].
  exists contexts, s1, stream. split; [reflexivity|]. split; [exact Hgen|].
  cbn [session messages]. rewrite <- app_assoc, stream_loop_concat. reflexivity.
Qed.

(** The history after a run of the script that asks [question], from a
    session with no suggested question pending. *)
Lemma script_asks (ev : interaction) (question : str) (s s1 : St)
    (r : result unit) :
  init_clients_error svc = None ->
  suggested_input (session s) = None ->
  asked ev = Some question ->
  script svc ev s = (r, s1) ->
  chat_turn svc question (with_messages s) = (r, s1).
Proof.
  intros Hinit Hnone Hq Hrun. rewrite (script_run svc Hinit ev s Hnone) in Hrun.
  destruct ev; try discriminate Hq; rewrite Hq in Hrun; exact Hrun.
Qed.

(** X18: the answer stored at the end of a turn is the text that was
    streamed. When the script run of a question returns, the history has
    gained the user message and an assistant message whose content is the
    tokens of the chunks of the stream, in order, taken from the first
    choice of each chunk; chunks without a choice, a delta or a content
    add nothing. The stream is the one generated for the question and the
    documents [retrieve_documents] returned for it with [top_k = 5]. *)
Theorem answer_is_the_streamed_text (s s' : St) (ev : interaction)
    (question : str) :
  reachable svc s ->
  asked ev = Some question ->
  script svc ev s = (Ok tt, s') ->
  exists asked_state contexts s1 stream,
    retrieve_documents svc question 5 asked_state = (Ok contexts, s1) /\
    generate_answer_stream svc question contexts (world s1) =
      (Ok stream, world s') /\
    history s' =
    history s ++
    [ user_message question;
      assistant_message (List.concat (map chunk_token stream)) ].
Proof.
  intros Hreach Hq Hrun.
  assert (Hinit : init_clients_error svc = None).
  { destruct (init_clients_error svc) as [msg|] eqn:Hinit; [|reflexivity].
    destruct (script_unconfigured svc Hinit ev s) as (s1 & Hs & _).
    rewrite Hs in Hrun. destruct ev; discriminate Hrun. }
  pose proof (reachable_no_pending Hinit Hreach) as Hnone.
  eapply script_asks in Hrun; try eassumption.
  destruct (chat_turn_outcome question (with_messages s) eq_refl Hrun)
    as [(e & He & _) | (_ & contexts & s1 & stream & Hret & Hgen & Hm)];
    [discriminate He|].
  eexists. exists contexts, s1, stream. split; [exact Hret|].
  split; [exact Hgen|].
  unfold history at 1. rewrite Hm. reflexivity.
Qed.

(** X19: a turn that fails leaves the question in the history with no
    answer. With the clients built ([init_clients()] returns), when the
    script run of a question ends by a raise, which is then a raise of
    retrieval or of generation, the interaction ends with the history
    extended by the user message alone. *)
Theorem failed_turn_keeps_question (s s1 : St) (ev : interaction)
    (question : str) (e : exn) :
  init_clients_error svc = None ->
  reachable svc s ->
  asked ev = Some question ->
  script svc ev s = (Raise e, s1) ->
  chat_turn svc question (with_messages s) = (Raise e, s1) /\
  exists r s',
    handle_interaction svc ev s = Some (r, s') /\
    history s' = history s ++ [user_message question].
Proof.
  intros Hinit Hreach Hq Hrun.
  pose proof (reachable_no_pending Hinit Hreach) as Hnone.
  destruct (handle_interaction_runs svc Hinit ev s Hnone)
    as (r & s' & Hh & _ & Hhist & _).
  rewrite Hrun in Hhist. cbn [snd] in Hhist.
  eapply script_asks in Hrun; try eassumption.
  split; [exact Hrun|].
  exists r, s'. split; [exact Hh|]. rewrite Hhist.
  destruct (chat_turn_outcome question (with_messages s) eq_refl Hrun)
    as [(e' & _ & Hm) | (Hok & _)]; [|discriminate Hok].
  unfold history at 1. rewrite Hm. reflexivity.
Qed.

Lemma count_role_app (r : str) (a b : list message) :
  count_role r (a ++ b) = (count_role r a + count_role r b)%nat.
Proof. unfold count_role. rewrite filter_app, length_app. reflexivity. Qed.

(** X20: the history of a session is always a sequence of turns: a user
    message, followed by its assistant message unless the turn failed.
    An assistant message always comes right after a user message, and
    there are never more assistant messages than user messages. *)
Theorem history_is_made_of_turns (s : St) :
  reachable svc s ->
  turns (history s) /\
  (count_role (lit "assistant") (history s) <=
   count_role (lit "user") (history s))%nat.
Proof.
  intros Hreach.
  assert (Hturns : turns (history s)).
  { destruct (init_clients_error svc) as [msg|] eqn:Hinit.
    { rewrite (reachable_unconfigured Hinit Hreach). constructor. }
    induction Hreach as [w | s s' ev r Hreach IH Hstep | s w _ IH].
    - constructor.
    - pose proof (reachable_no_pending Hinit Hreach) as Hnone.
      destruct (handle_interaction_runs svc Hinit ev s Hnone)
        as (r' & s'' & Hh & _ & Hhist & _).
      rewrite Hh in Hstep. injection Hstep as _ <-. rewrite Hhist.
      destruct (script svc ev s) as [r1 s1] eqn:Hrun. cbn [snd].
      destruct (asked ev) as [question|] eqn:Hq.
      + eapply script_asks in Hrun; try eassumption.
        destruct (chat_turn_outcome question (with_messages s) eq_refl Hrun)
          as [(e' & _ & Hm) | (_ & contexts & s2 & stream & _ & _ & Hm)];
          unfold history at 1; rewrite Hm; constructor; exact IH.
      + rewrite (script_run svc Hinit ev s Hnone), Hq in Hrun.
        destruct ev; injection Hrun as _ <-; try exact IH. constructor.
    - exact IH. }
  split; [exact Hturns|].
  induction Hturns as [|h question _ IH|h question answer _ IH].
  - apply Nat.le_refl.
  - rewrite !count_role_app.
    change (count_role (lit "assistant") [user_message question]) with 0%nat.
    change (count_role (lit "user") [user_message question]) with 1%nat.
    lia.
  - rewrite !count_role_app.
    change (count_role (lit "assistant")
              [user_message question; assistant_message answer]) with 1%nat.
    change (count_role (lit "user")
              [user_message question; assistant_message answer]) with 1%nat.
    lia.
Qed.

(** X21: an interaction that asks nothing calls no service. Clear Chat,
    a rerun without interaction, an empty chat input and a click that
    matches no suggested question all leave the world of the services as
    it was. With the clients built they are handled without an error;
    when [init_clients()] raises, the interaction ends with that error. *)
Theorem idle_interaction_calls_no_service (s : St) (ev : interaction) :
  reachable svc s ->
  asked ev = None ->
  exists r s',
    handle_interaction svc ev s = Some (r, s') /\
    world s' = world s /\
    r = match init_clients_error svc with
        | None => Ok tt
        | Some msg => Raise (Exception msg)
        end.
Proof.
  intros Hreach Hq.
  destruct (init_clients_error svc) as [msg|] eqn:Hinit.
  { destruct (handle_interaction_unconfigured svc Hinit ev s) as (s' & Hrun & Hw & _).
    exists (Raise (Exception msg)), s'.
    split; [exact Hrun|]. split; [exact Hw | reflexivity]. }
  pose proof (reachable_no_pending Hinit Hreach) as Hnone.
  unfold handle_interaction. cbn [run].
  rewrite (script_run svc Hinit ev s Hnone), Hq.
  destruct ev as [|i| |text].
  - eexists. eexists. split; [reflexivity|]. split; reflexivity.
  - eexists. eexists. split; [reflexivity|]. split; reflexivity.
  - rewrite (script_run svc Hinit NoInteraction
               {| session := {| messages := Some []; suggested_input := None |};
                  world := world s |} eq_refl).
    cbn [asked]. eexists. eexists. split; [reflexivity|]. split; reflexivity.
  - eexists. eexists. split; [reflexivity|]. split; reflexivity.
Qed.

End ChatFacts.

(* ------------------------------------------------------------------ *)
(** * The added properties on the small worlds *)
(* ------------------------------------------------------------------ *)

Module MoreExamples.

Import Ingest Observe.

Lemma pdf_to_images_pages_witness :
  exists n w,
    fitz_open Demo.ingest_services (lit "report.pdf") (world Demo.ingest_start) =
      (Ok n, w) /\
    [ (1%Z, lit "/tmp/ingest/page_1.png"); (2%Z, lit "/tmp/ingest/page_2.png") ] =
      map (page_image (lit "/tmp/ingest")) (seq 0 n) /\
    map fst [ (1%Z, lit "/tmp/ingest/page_1.png");
              (2%Z, lit "/tmp/ingest/page_2.png") ] = map Z.of_nat (seq 1 n) /\
    trace (snd (pdf_to_images Demo.ingest_services (lit "report.pdf")
                  (lit "/tmp/ingest") Demo.ingest_start)) =
    trace Demo.ingest_start.
Proof.
  apply (@pdf_to_images_pages nat nat Demo.ingest_services (lit "report.pdf")
           (lit "/tmp/ingest") Demo.ingest_start).
  vm_compute. reflexivity.
Defined.

Lemma pdf_to_images_distinct_witness :
  let images := [ (1%Z, lit "/tmp/ingest/page_1.png");
                  (2%Z, lit "/tmp/ingest/page_2.png") ] in
  Forall (fun p => (0 < fst p)%Z) images /\
  NoDup (map fst images) /\
  NoDup (map snd images).
Proof.
  apply (@pdf_to_images_distinct nat nat Demo.ingest_services (lit "report.pdf")
           (lit "/tmp/ingest") Demo.ingest_start
           (snd (pdf_to_images Demo.ingest_services (lit "report.pdf")
                   (lit "/tmp/ingest") Demo.ingest_start))).
  vm_compute. reflexivity.
Defined.

Lemma ingest_pdf_aborts_when_rendering_fails_witness :
  ingest_pdf Faults.unreadable_pdf (lit "broken.pdf") (lit "broken") (lit "FY24")
    Demo.ingest_start =
  (Raise (Exception (lit "cannot open broken document")),
   {| world := 3%nat;
      trace := [Printed (LogStarting (lit "broken.pdf"))] |}) /\
  ingest_pdf Faults.undeletable_tmpdir (lit "broken.pdf") (lit "broken")
    (lit "FY24") Demo.ingest_start =
  (Raise (Exception (lit "directory not empty")),
   {| world := 3%nat;
      trace := [Printed (LogStarting (lit "broken.pdf"))] |}).
Proof.
  split.
  - apply (@ingest_pdf_aborts_when_rendering_fails nat nat Faults.unreadable_pdf
             (lit "broken.pdf") (lit "broken") (lit "FY24") (lit "/tmp/ingest")
             Demo.ingest_start
             {| world := 1%nat; trace := [Printed (LogStarting (lit "broken.pdf"))] |}
             {| world := 2%nat; trace := [Printed (LogStarting (lit "broken.pdf"))] |}
             (Exception (lit "cannot open broken document")) (Ok tt) 3%nat);
      vm_compute; reflexivity.
  - apply (@ingest_pdf_aborts_when_rendering_fails nat nat Faults.undeletable_tmpdir
             (lit "broken.pdf") (lit "broken") (lit "FY24") (lit "/tmp/ingest")
             Demo.ingest_start
             {| world := 1%nat; trace := [Printed (LogStarting (lit "broken.pdf"))] |}
             {| world := 2%nat; trace := [Printed (LogStarting (lit "broken.pdf"))] |}
             (Exception (lit "cannot open broken document"))
             (Raise (Exception (lit "directory not empty"))) 3%nat);
      vm_compute; reflexivity.
Defined.

(** The state a run over the two-page PDF of [Demo] ends in. *)
Lemma demo_run :
  ingest_pdf Demo.ingest_services (lit "report.pdf") (lit "report 2024")
    (lit "FY24") Demo.ingest_start =
  (Ok tt,
   snd (ingest_pdf Demo.ingest_services (lit "report.pdf") (lit "report 2024")
          (lit "FY24") Demo.ingest_start)).
Proof. vm_compute. reflexivity. Defined.

Lemma ingest_pdf_accounts_for_every_page_witness :
  let lines :=
    printed (new_events Demo.ingest_start
               (snd (ingest_pdf Demo.ingest_services (lit "report.pdf")
                       (lit "report 2024") (lit "FY24") Demo.ingest_start))) in
  exists tmpdir s1 n w,
    call (mkdtemp Demo.ingest_services)
      (logged (LogStarting (lit "report.pdf")) Demo.ingest_start) =
      (Ok tmpdir, s1) /\
    fitz_open Demo.ingest_services (lit "report.pdf") (world s1) = (Ok n, w) /\
    List.last lines (LogStarting (lit "report.pdf")) = LogCompleted /\
    processing_pages lines = map Z.of_nat (seq 1 n) /\
    settled_pages lines = map Z.of_nat (seq 1 n) /\
    (List.length (stored_pages lines) + List.length (failed_pages lines))%nat = n.
Proof.
  exact (ingest_pdf_accounts_for_every_page Demo.ingest_services _ _ _ _ demo_run).
Defined.

(** The two-page PDF: page 1 failed, page 2 was stored. *)
Example demo_run_lines :
  printed (new_events Demo.ingest_start
             (snd (ingest_pdf Demo.ingest_services (lit "report.pdf")
                     (lit "report 2024") (lit "FY24") Demo.ingest_start))) =
  [ LogStarting (lit "report.pdf");
    LogProcessing 1; LogImageSize 204800; LogFailed 1 (lit "vision timeout");
    LogProcessing 2; LogImageSize 204800; LogStored 2 (lit "report 2024");
    LogCompleted ].
Proof. vm_compute. reflexivity. Qed.

Lemma ingest_pdf_uploads_distinct_ids_witness :
  NoDup (map (@id nat)
           (uploaded (new_events Demo.ingest_start
              (snd (ingest_pdf Demo.ingest_services (lit "report.pdf")
                      (lit "report 2024") (lit "FY24") Demo.ingest_start))))).
Proof.
  exact (ingest_pdf_uploads_distinct_ids Demo.ingest_services _ _ _ _ demo_run).
Defined.

Lemma ingest_pdf_uploaded_record_fields_witness :
  let d := page_document (lit "report 2024") 2 (lit "FY24") default_section
             (lit "| Revenue | 42 |") page_detail 16%nat in
  doc d = lit "report 2024" /\ Ingest.year d = lit "FY24" /\
  section d = lit "Auto-detected" /\ (0 < page d)%Z /\
  In (content_type d) [page_detail; page_summary] /\
  id d = record_id (lit "report 2024") (page d) (content_type d).
Proof.
  intros d.
  refine (ingest_pdf_uploaded_record_fields Demo.ingest_services _ _ _ _ d
            demo_run _).
  vm_compute. left. reflexivity.
Defined.



Lemma ingest_pdf_stops_on_non_Exception_witness :
  fst (ingest_pdf Faults.interrupted (lit "report.pdf") (lit "report 2024")
         (lit "FY24") Demo.ingest_start) =
    Raise (BaseException (lit "KeyboardInterrupt")) /\
  printed (new_events Demo.ingest_start
             (snd (ingest_pdf Faults.interrupted (lit "report.pdf")
                     (lit "report 2024") (lit "FY24") Demo.ingest_start))) =
  [ LogStarting (lit "report.pdf"); LogProcessing 1; LogImageSize 204800 ].
Proof.
  pose (s1 := snd (call (mkdtemp Faults.interrupted)
                     (logged (LogStarting (lit "report.pdf")) Demo.ingest_start))).
  pose (s2 := snd (pdf_to_images Faults.interrupted (lit "report.pdf")
                     (lit "/tmp/ingest") s1)).
  pose (s4 := snd (process_page Faults.interrupted (lit "report 2024")
                     (lit "FY24") 1 (lit "/tmp/ingest/page_1.png")
                     (logged (LogProcessing 1) s2))).
  rewrite (@ingest_pdf_stops_on_non_Exception nat nat Faults.interrupted
             (lit "report.pdf") (lit "report 2024") (lit "FY24")
             [] [(2%Z, lit "/tmp/ingest/page_2.png")]
             1%Z (lit "/tmp/ingest/page_1.png") Demo.ingest_start
             s1 s2 s2 s4 (lit "/tmp/ingest")
             (BaseException (lit "KeyboardInterrupt"))
             (Ok tt) (S (world s4)));
    try (vm_compute; reflexivity).
  - split; [reflexivity | vm_compute; reflexivity].
  - discriminate.
Defined.

Lemma upload_page_all_or_nothing_witness :
  let s' := snd (upload_page Faults.second_embedding_fails (lit "report 2024") 3
                   (lit "FY24") (lit "| Revenue | 42 |") (lit "- Revenue: 42")
                   default_section Demo.ingest_start) in
  printed (new_events Demo.ingest_start s') = [] /\
  uploaded (new_events Demo.ingest_start s') = [].
Proof.
  intros s'.
  destruct (@upload_page_all_or_nothing nat nat Faults.second_embedding_fails
              (lit "report 2024") 3 (lit "FY24") (lit "| Revenue | 42 |")
              (lit "- Revenue: 42") default_section Demo.ingest_start s'
              (Exception (lit "rate limit")))
    as [Hprinted _]; [vm_compute; reflexivity|].
  split; [exact Hprinted | vm_compute; reflexivity].
Defined.

Lemma retrieve_documents_needs_complete_results_witness :
  let s' := {| App.session := App.session Demo.app_start; App.world := 2%nat |} in
  (Forall (fun r => exists d, App.built_from r d) [Demo.hit1; Faults.hit_without_page] ->
   exists docs,
     App.retrieve_documents Faults.search_partial (lit "revenue") 5 Demo.app_start =
     (Ok docs, s')) /\
  (~ Forall (fun r => exists d, App.built_from r d)
       [Demo.hit1; Faults.hit_without_page] ->
   exists key,
     In key [lit "content"; lit "doc"; lit "page"; lit "content_type"] /\
     App.retrieve_documents Faults.search_partial (lit "revenue") 5 Demo.app_start =
     (Raise (Exception (lit "'" ++ key ++ lit "'")), s')).
Proof.
  apply (@retrieve_documents_needs_complete_results nat nat Faults.search_partial
           (lit "revenue") 5 Demo.app_start 7%nat 1%nat 2%nat
           [Demo.hit1; Faults.hit_without_page]);
    vm_compute; reflexivity.
Defined.

(** With the incomplete result, it is the [KeyError] on ["page"]. *)
Example retrieve_documents_missing_page :
  fst (App.retrieve_documents Faults.search_partial (lit "revenue") 5
         Demo.app_start) = Raise (Exception (lit "'page'")).
Proof. vm_compute. reflexivity. Qed.

Lemma answer_is_the_streamed_text_witness :
  exists asked_state contexts s1 stream,
    App.retrieve_documents Demo.app_services (lit "What is the revenue?") 5
      asked_state = (Ok contexts, s1) /\
    App.generate_answer_stream Demo.app_services (lit "What is the revenue?")
      contexts (App.world s1) = (Ok stream, App.world Demo.app_after_turn) /\
    App.history Demo.app_after_turn =
    App.history Demo.app_start ++
    [ App.user_message (lit "What is the revenue?");
      App.assistant_message (List.concat (map App.chunk_token stream)) ].
Proof.
  apply (@answer_is_the_streamed_text nat nat Demo.app_services Demo.app_start
           Demo.app_after_turn
           (App.SubmitChatInput (lit "What is the revenue?"))
           (lit "What is the revenue?")).
  - apply App.reach_start.
  - reflexivity.
  - vm_compute. reflexivity.
Defined.

Lemma failed_turn_keeps_question_witness :
  App.chat_turn Faults.search_down
    (lit "Provide summary on Swiggy Annual Report 2023-24")
    (App.with_messages Demo.app_start) =
    (Raise (Exception (lit "503")),
     snd (App.script Faults.search_down (App.ClickSuggested 0) Demo.app_start)) /\
  exists r s',
    App.handle_interaction Faults.search_down (App.ClickSuggested 0) Demo.app_start =
      Some (r, s') /\
    App.history s' =
    App.history Demo.app_start ++
    [ App.user_message (lit "Provide summary on Swiggy Annual Report 2023-24") ].
Proof.
  apply (@failed_turn_keeps_question nat nat Faults.search_down Demo.app_start
           (snd (App.script Faults.search_down (App.ClickSuggested 0) Demo.app_start))
           (App.ClickSuggested 0)
           (lit "Provide summary on Swiggy Annual Report 2023-24")
           (Exception (lit "503"))).
  - reflexivity.
  - apply App.reach_start.
  - reflexivity.
  - vm_compute. reflexivity.
Defined.

Lemma history_is_made_of_turns_witness :
  Turns.turns (App.history Demo.app_after_turn) /\
  (Turns.count_role (lit "assistant") (App.history Demo.app_after_turn) <=
   Turns.count_role (lit "user") (App.history Demo.app_after_turn))%nat.
Proof.
  apply (@history_is_made_of_turns nat nat Demo.app_services).
  exact AppExamples.app_after_turn_reachable.
Defined.

Lemma idle_interaction_calls_no_service_witness :
  (exists r s',
     App.handle_interaction Demo.app_services App.ClickClearChat
       Demo.app_after_turn = Some (r, s') /\
     App.world s' = App.world Demo.app_after_turn /\
     r = Ok tt) /\
  (exists r s',
     App.handle_interaction Faults.unconfigured App.NoInteraction Demo.app_start =
       Some (r, s') /\
     App.world s' = App.world Demo.app_start /\
     r = Raise (Exception (lit "Missing credentials"))).
Proof.
  split.
  - apply (@idle_interaction_calls_no_service nat nat Demo.app_services).
    + exact AppExamples.app_after_turn_reachable.
    + reflexivity.
  - apply (@idle_interaction_calls_no_service nat nat Faults.unconfigured).
    + apply App.reach_start.
    + reflexivity.
Defined.

End MoreExamples.
